(** * The meeting assistant: conversation loop, model adapter, tool proxy

    A shallow embedding of [chat_session.py], [models/gemini.py],
    [mcp_client.py] and [mcp_server.py].  Python values are modelled as
    follows.

    - [str] is [string]: a character stands for the code point of its
      number, so the texts modelled are those of code points below 256.
      White space is what [str.isspace] accepts in that range; the case
      methods change the ASCII letters, which is all that the comparison
      with ["exit"] and the type names of a schema depend on.
    - a JSON-shaped value ([dict], [list], scalars) is [json]; a [dict] is an
      association list in insertion order, written to with [dict_set] and
      read with [dict_get].
    - a Python [list] that the program mutates in place is an object of the
      [heap], addressed by a location; two names for one list are one
      location.
    - exceptions are values of [exn]; an effectful method is a function of
      the monad [M], which threads the session state and either returns or
      raises. *)

From Stdlib Require Import ZArith Ascii String.
From stdpp Require Import base option list strings pretty.

Open Scope string_scope.
Open Scope list_scope.

(** ** Strings *)

Module PyStr.

Definition is_upper_letter (c : ascii) : bool :=
  let n := nat_of_ascii c in (65 <=? n)%nat && (n <=? 90)%nat.

Definition is_lower_letter (c : ascii) : bool :=
  let n := nat_of_ascii c in (97 <=? n)%nat && (n <=? 122)%nat.

Definition lower_char (c : ascii) : ascii :=
  if is_upper_letter c then ascii_of_nat (nat_of_ascii c + 32) else c.

Definition upper_char (c : ascii) : ascii :=
  if is_lower_letter c then ascii_of_nat (nat_of_ascii c - 32) else c.

Fixpoint smap (f : ascii -> ascii) (s : string) : string :=
  match s with
  | EmptyString => EmptyString
  | String c r => String (f c) (smap f r)
  end.

(** [s.lower()] and [s.upper()]. *)
Definition lower : string -> string := smap lower_char.
Definition upper : string -> string := smap upper_char.

(** The characters [str.strip] and [str.split] treat as white space, those
    of [str.isspace]: the code points 9 to 13 and 28 to 32, the next-line
    control U+0085 and the no-break space U+00A0. *)
Definition is_space (c : ascii) : bool :=
  let n := nat_of_ascii c in
  ((9 <=? n)%nat && (n <=? 13)%nat) || ((28 <=? n)%nat && (n <=? 32)%nat)
  || (n =? 133)%nat || (n =? 160)%nat.

Fixpoint lstrip (s : string) : string :=
  match s with
  | EmptyString => EmptyString
  | String c r => if is_space c then lstrip r else s
  end.

(** Right strip: drop a character when it is white space and everything
    after it has been dropped. *)
Fixpoint rstrip (s : string) : string :=
  match s with
  | EmptyString => EmptyString
  | String c r =>
      match rstrip r with
      | EmptyString => if is_space c then EmptyString else String c EmptyString
      | r' => String c r'
      end
  end.

(** [s.strip()]. *)
Definition strip (s : string) : string := rstrip (lstrip s).

(** [s.split()]: the maximal runs of characters that are not white space.
    [cur] is the run being read, in reverse. *)
Fixpoint split_aux (s : string) (cur : list ascii) : list string :=
  let flush (rest : list string) :=
    match cur with
    | [] => rest
    | _ => string_of_list_ascii (rev cur) :: rest
    end in
  match s with
  | EmptyString => flush []
  | String c r =>
      if is_space c then flush (split_aux r []) else split_aux r (c :: cur)
  end.

Definition split (s : string) : list string := split_aux s [].

(** [sep.join(l)]. *)
Fixpoint join (sep : string) (l : list string) : string :=
  match l with
  | [] => EmptyString
  | [x] => x
  | x :: r => x +:+ sep +:+ join sep r
  end.

(** [s.startswith("/")]. *)
Definition startswith_slash (s : string) : bool :=
  match s with
  | String "/" _ => true
  | _ => false
  end.

(** [s[1:]]. *)
Definition tail (s : string) : string :=
  match s with
  | EmptyString => EmptyString
  | String _ r => r
  end.

(** Truthiness of a string. *)
Definition nonempty (s : string) : bool :=
  match s with
  | EmptyString => false
  | _ => true
  end.

End PyStr.

(** ** JSON-shaped values *)

#[warnings="-register-all"] Inductive json : Type :=
| JNone
| JBool (b : bool)
| JNum (n : Z)
| JStr (s : string)
| JList (items : list json)
| JDict (items : list (string * json)).

(** An induction principle that reaches the values nested in lists and
    dictionaries. *)
Section json_rect.
Variable P : json -> Prop.
Hypothesis HNone : P JNone.
Hypothesis HBool : forall b, P (JBool b).
Hypothesis HNum : forall n, P (JNum n).
Hypothesis HStr : forall s, P (JStr s).
Hypothesis HList : forall l, Forall P l -> P (JList l).
Hypothesis HDict : forall kvs, Forall (fun kv => P kv.2) kvs -> P (JDict kvs).

Fixpoint json_nested_ind (x : json) : P x :=
  match x with
  | JNone => HNone
  | JBool b => HBool b
  | JNum n => HNum n
  | JStr s => HStr s
  | JList l =>
      HList l
        ((fix go (l : list json) : Forall P l :=
            match l with
            | [] => Forall_nil_2 P
            | y :: r => Forall_cons_2 P y r (json_nested_ind y) (go r)
            end) l)
  | JDict kvs =>
      HDict kvs
        ((fix go (kvs : list (string * json)) : Forall (fun kv => P kv.2) kvs :=
            match kvs with
            | [] => Forall_nil_2 _
            | (k, v) :: r => Forall_cons_2 _ (k, v) r (json_nested_ind v) (go r)
            end) kvs)
  end.
End json_rect.

(** [d[k] = v] on a dictionary: overwrite in place when the key is present,
    append otherwise. *)
Fixpoint dict_set (d : list (string * json)) (k : string) (v : json)
  : list (string * json) :=
  match d with
  | [] => [(k, v)]
  | (k', v') :: r =>
      if String.eqb k' k then (k, v) :: r else (k', v') :: dict_set r k v
  end.

(** [d.get(k)]: the value last stored under [k]. *)
Fixpoint dict_get (d : list (string * json)) (k : string) : option json :=
  match d with
  | [] => None
  | (k', v') :: r =>
      match dict_get r k with
      | Some v => Some v
      | None => if String.eqb k' k then Some v' else None
      end
  end.

(** ** [clean_schema] (models/gemini.py) *)

Section CleanSchema.

(** [str.upper]. *)
Variable upper : string -> string.

(** The value stored under [key] by one iteration of the loop over
    [schema.items()]; [rec] is the recursive call. *)
Definition clean_value (rec : json -> json) (key : string) (value : json) : json :=
  match value with
  | JStr s => if String.eqb key "type" then JStr (upper s) else rec value
  | _ => rec value
  end.

Fixpoint clean_schema (schema : json) : json :=
  match schema with
  | JDict kvs =>
      JDict
        ((fix items (kvs : list (string * json)) (new_schema : list (string * json)) :=
            match kvs with
            | [] => new_schema
            | (key, value) :: rest =>
                if String.eqb key "title" then items rest new_schema
                else items rest (dict_set new_schema key (clean_value clean_schema key value))
            end) kvs [])
  | JList l => JList (map clean_schema l)
  | _ => schema
  end.

End CleanSchema.

(** The loop over [schema.items()], as a function of its own. *)
Fixpoint clean_items (upper : string -> string)
    (kvs new_schema : list (string * json)) : list (string * json) :=
  match kvs with
  | [] => new_schema
  | (key, value) :: rest =>
      if String.eqb key "title" then clean_items upper rest new_schema
      else clean_items upper rest
             (dict_set new_schema key (clean_value upper (clean_schema upper) key value))
  end.

(** Whether some dictionary of [x], at any depth, has the key ["title"]. *)
Fixpoint has_title (x : json) : bool :=
  match x with
  | JDict kvs => existsb (fun kv => String.eqb kv.1 "title" || has_title kv.2) kvs
  | JList l => existsb has_title l
  | _ => false
  end.

(** Addresses inside a JSON value: a dictionary key or a list index. *)
Inductive step : Type :=
| Key (k : string)
| Index (i : nat).

#[global] Instance step_eq_dec : EqDecision step.
Proof. solve_decision. Defined.

Fixpoint at_path (p : list step) (x : json) : option json :=
  match p with
  | [] => Some x
  | st :: p' =>
      match st, x with
      | Key k, JDict d => dict_get d k ≫= at_path p'
      | Index i, JList l => l !! i ≫= at_path p'
      | _, _ => None
      end
  end.

(** A schema of the kind the tool server publishes. *)
Definition sample_schema : json :=
  JDict [("title", JStr "schedule_meetingArguments");
         ("type", JStr "object");
         ("properties",
           JDict [("topic", JDict [("title", JStr "Topic"); ("type", JStr "string")]);
                  ("attendees",
                    JDict [("type", JStr "array");
                           ("items", JDict [("type", JStr "string")]);
                           ("title", JStr "Attendees")])]);
         ("required", JList [JStr "topic"])].

(** ** [json.dumps] *)

(** The double quote character, as a string. *)
Definition dquote : string := String "034"%char EmptyString.

Definition hex_digit (n : nat) : ascii :=
  if (n <? 10)%nat then ascii_of_nat (48 + n) else ascii_of_nat (87 + n).

(** What [json.dumps] writes for one character of a string: printable ASCII
    as it is, the quote and the backslash escaped, the rest by their short
    escape or as a [\u00XX] sequence. *)
Definition escape_char (c : ascii) : string :=
  let n := nat_of_ascii c in
  if (n =? 34)%nat then String "\" dquote
  else if (n =? 92)%nat then "\\"
  else if (n =? 10)%nat then "\n"
  else if (n =? 13)%nat then "\r"
  else if (n =? 9)%nat then "\t"
  else if (n =? 8)%nat then "\b"
  else if (n =? 12)%nat then "\f"
  else if ((32 <=? n)%nat && (n <=? 126)%nat) then String c EmptyString
  else "\u00" +:+ String (hex_digit (n / 16)) (String (hex_digit (n mod 16)) EmptyString).

Fixpoint escape (s : string) : string :=
  match s with
  | EmptyString => EmptyString
  | String c r => escape_char c +:+ escape r
  end.

Definition quoted (s : string) : string := dquote +:+ escape s +:+ dquote.

Fixpoint json_dumps (x : json) : string :=
  match x with
  | JNone => "null"
  | JBool true => "true"
  | JBool false => "false"
  | JNum n => pretty n
  | JStr s => quoted s
  | JList l => "[" +:+ PyStr.join ", " (map json_dumps l) +:+ "]"
  | JDict kvs =>
      "{" +:+ PyStr.join ", " (map (fun kv => quoted kv.1 +:+ ": " +:+ json_dumps kv.2) kvs)
          +:+ "}"
  end.

(** Truthiness of a JSON-shaped value. *)
Definition json_bool (x : json) : bool :=
  match x with
  | JNone => false
  | JBool b => b
  | JNum n => negb (n =? 0)%Z
  | JStr s => PyStr.nonempty s
  | JList l => match l with [] => false | _ => true end
  | JDict d => match d with [] => false | _ => true end
  end.

(** ** Exceptions and the effect monad *)

(** The exceptions the program meets; all are subclasses of [Exception].
    [InternalServerError] is [google_exceptions.InternalServerError]; any
    class the program does not name is an [OtherException]. *)
Inductive exn : Type :=
| ConnectionError (msg : string)
| IndexError (msg : string)
| ValueError (msg : string)
| EOFError
| InternalServerError (msg : string)
| OtherException (cls msg : string).

(** [str(e)]. *)
Definition exn_str (e : exn) : string :=
  match e with
  | ConnectionError m | IndexError m | ValueError m | InternalServerError m => m
  | EOFError => EmptyString
  | OtherException _ m => m
  end.

Inductive result (A : Type) : Type :=
| Return (a : A)
| Raise (e : exn).
Arguments Return {A} a.
Arguments Raise {A} e.

(** A computation over a state [Σ] that returns or raises. *)
Definition M (Σ A : Type) : Type := Σ -> result A * Σ.

Definition ret {Σ A} (a : A) : M Σ A := fun σ => (Return a, σ).

Definition bind {Σ A B} (k : A -> M Σ B) (c : M Σ A) : M Σ B :=
  fun σ =>
    match c σ with
    | (Return a, σ') => k a σ'
    | (Raise e, σ') => (Raise e, σ')
    end.

Definition raise {Σ A} (e : exn) : M Σ A := fun σ => (Raise e, σ).

(** [try: c  except Exception as e: h e]. *)
Definition try_except {Σ A} (c : M Σ A) (h : exn -> M Σ A) : M Σ A :=
  fun σ =>
    match c σ with
    | (Return a, σ') => (Return a, σ')
    | (Raise e, σ') => h e σ'
    end.

Definition get {Σ} : M Σ Σ := fun σ => (Return σ, σ).
Definition modify {Σ} (f : Σ -> Σ) : M Σ unit := fun σ => (Return tt, f σ).

#[global] Instance M_ret {Σ} : MRet (M Σ) := @ret Σ.
#[global] Instance M_bind {Σ} : MBind (M Σ) := @bind Σ.

(** ** Messages, responses and tools *)

(** A tool call requested by the model.  [fc_args] is absent when the
    request carries no argument structure. *)
Record FunctionCall : Type := {
  fc_name : string;
  fc_args : option json
}.

(** A function call with no field set; it is false as a condition. *)
Definition no_call : FunctionCall := {| fc_name := EmptyString; fc_args := None |}.

Definition FunctionCall_bool (c : FunctionCall) : bool :=
  PyStr.nonempty (fc_name c) || bool_decide (is_Some (fc_args c)).

(** One part of a message: text, a tool call, or the result of a tool call
    ([{"function_response": {"name": n, "response": {"content": c}}}]). *)
Inductive Part : Type :=
| Text (text : string)
| Call (call : FunctionCall)
| FunctionResponse (name : string) (content : string).

(** The name a result part answers to. *)
Definition response_name (p : Part) : option string :=
  match p with
  | FunctionResponse name _ => Some name
  | _ => None
  end.

(** [p.function_call]. *)
Definition function_call (p : Part) : FunctionCall :=
  match p with
  | Call c => c
  | _ => no_call
  end.

Record Content : Type := { parts : list Part }.
Record Candidate : Type := { content : Content }.
Record Response : Type := { candidates : list Candidate }.

(** An entry of a conversation history: a dictionary
    [{"role": r, "parts": ps}] or the content object of a model response. *)
Inductive Message : Type :=
| Msg (role : string) (msg_parts : list Part)
| ModelContent (c : Content).

Definition message_role (m : Message) : string :=
  match m with
  | Msg r _ => r
  | ModelContent _ => "model"
  end.

Definition message_parts (m : Message) : list Part :=
  match m with
  | Msg _ ps => ps
  | ModelContent c => parts c
  end.

(** A tool as the server lists it. *)
Record Tool : Type := {
  tool_name : string;
  tool_description : string;
  inputSchema : json
}.

(** A tool in the backend's dialect:
    [{"function_declarations": [{"name": n, "description": d, "parameters": p}]}]. *)
Record FunctionDeclaration : Type := {
  fd_name : string;
  fd_description : string;
  fd_parameters : json
}.

Record GeminiTool : Type := { function_declarations : list FunctionDeclaration }.

(** An item of a tool result; only text items are read. *)
Inductive ContentItem : Type :=
| TextContent (text : string)
| OtherContent.

Record CallToolResult : Type := {
  ctr_content : list ContentItem;
  isError : bool
}.

(** What the program prints. *)
Inductive Output : Type :=
| Tip (prompts : list string)
| CouldNotFetchPrompts (e : exn)
| RunningPrompt (prompt_name : string)
| ErrorRunningPrompt (e : exn)
| CallingTool (name : string) (input : option json)
| ServerError500
| UnexpectedApiError (e : exn)
| NoResponseNotice
| FinalText (text : string).

(** The calls that leave the process. *)
Inductive RemoteCall : Type :=
| Initialize
| ListPrompts
| GetPrompt (name : string) (arguments : json)
| ListTools
| CallTool (name : string) (input : option json)
| GenerateContent (contents : list Message) (tools : option (list GeminiTool)).

(** ** The collaborators and the session state *)

(** The contexts [connect] enters on the exit stack. *)
Inductive ExitContext : Type :=
| StdioTransport
| SessionContext.

(** The session object of the tool protocol. *)
Inductive ClientSession : Type :=
| TheSession.

(** The fields of an [MCPClient] that change; the head of [_exit_stack] is
    the context entered last. *)
Record MCPClient : Type := {
  _session : option ClientSession;
  _exit_stack : list ExitContext
}.

(** The tool server, the transport and the model backend, as functions of
    a state [W] of their own.  Each answers by returning or by raising.
    [session_get_prompt] answers with the texts of the messages of the
    prompt, [None] for a result that is false as a condition;
    [response_text] is the [text] accessor of a response. *)
Record Remote (W : Type) : Type := {
  stdio_client_enter : W -> result unit * W;
  client_session_enter : W -> result ClientSession * W;
  session_initialize : W -> result unit * W;
  context_exit : ExitContext -> W -> result unit * W;
  session_list_tools : W -> result (list Tool) * W;
  session_call_tool : string -> option json -> W -> result (option CallToolResult) * W;
  session_get_prompt : string -> json -> W -> result (option (list string)) * W;
  session_list_prompts : W -> result (list string) * W;
  generate_content :
    list Message -> option (list GeminiTool) -> W -> result Response * W;
  response_text : Response -> result string
}.
Arguments stdio_client_enter {W} _ _.
Arguments client_session_enter {W} _ _.
Arguments session_initialize {W} _ _.
Arguments context_exit {W} _ _ _.
Arguments session_list_tools {W} _ _.
Arguments session_call_tool {W} _ _ _ _.
Arguments session_get_prompt {W} _ _ _ _.
Arguments session_list_prompts {W} _ _.
Arguments generate_content {W} _ _ _ _.
Arguments response_text {W} _ _.

(** A location of the heap of Python lists. *)
Abbreviation loc := nat.

(** The state of a running program: the collaborators' state, the remote
    calls made so far, what was printed, the lists of messages allocated
    so far, the client, and [ChatSession.history] (a reference to a list). *)
Record State (W : Type) : Type := {
  world : W;
  calls : list RemoteCall;
  stdout : list Output;
  heap : list (list Message);
  client : MCPClient;
  history : loc
}.
Arguments world {W} _.
Arguments calls {W} _.
Arguments stdout {W} _.
Arguments heap {W} _.
Arguments client {W} _.
Arguments history {W} _.

Section Setters.
Context {W : Type}.

Definition set_world (w : W) (σ : State W) : State W :=
  {| world := w; calls := calls σ; stdout := stdout σ; heap := heap σ;
     client := client σ; history := history σ |}.

Definition set_calls (c : list RemoteCall) (σ : State W) : State W :=
  {| world := world σ; calls := c; stdout := stdout σ; heap := heap σ;
     client := client σ; history := history σ |}.

Definition set_stdout (o : list Output) (σ : State W) : State W :=
  {| world := world σ; calls := calls σ; stdout := o; heap := heap σ;
     client := client σ; history := history σ |}.

Definition set_heap (h : list (list Message)) (σ : State W) : State W :=
  {| world := world σ; calls := calls σ; stdout := stdout σ; heap := h;
     client := client σ; history := history σ |}.

Definition set_client (c : MCPClient) (σ : State W) : State W :=
  {| world := world σ; calls := calls σ; stdout := stdout σ; heap := heap σ;
     client := c; history := history σ |}.

Definition set_history (l : loc) (σ : State W) : State W :=
  {| world := world σ; calls := calls σ; stdout := stdout σ; heap := heap σ;
     client := client σ; history := l |}.

(** [print(...)]. *)
Definition print (o : Output) : M (State W) unit :=
  modify (fun σ => set_stdout (stdout σ ++ [o]) σ).

(** [list(l)] and [[]]: a new list object. *)
Definition list_new (items : list Message) : M (State W) loc :=
  fun σ => (Return (length (heap σ)), set_heap (heap σ ++ [items]) σ).

(** The items of the list at [l]. *)
Definition list_items (l : loc) : M (State W) (list Message) :=
  fun σ => (Return (heap σ !!! l), σ).

(** [l.append(m)]. *)
Definition list_append (l : loc) (m : Message) : M (State W) unit :=
  modify (fun σ => set_heap (<[l := heap σ !!! l ++ [m]]> (heap σ)) σ).

(** [l.pop()]: remove and return the last item; an empty list raises. *)
Definition list_pop (l : loc) : M (State W) Message :=
  fun σ =>
    match last (heap σ !!! l) with
    | Some m => (Return m, set_heap (<[l := removelast (heap σ !!! l)]> (heap σ)) σ)
    | None => (Raise (IndexError "pop from empty list"), σ)
    end.

(** A call that leaves the process: recorded, then answered by the
    collaborator. *)
Definition remote {A} (call : RemoteCall) (f : W -> result A * W) : M (State W) A :=
  fun σ =>
    let (r, w) := f (world σ) in
    (r, set_world w (set_calls (calls σ ++ [call]) σ)).

(** A step of a collaborator that is not a request of the tool protocol. *)
Definition local {A} (f : W -> result A * W) : M (State W) A :=
  fun σ => let (r, w) := f (world σ) in (r, set_world w σ).

End Setters.

(** The state after the request [call] has been answered with world [w]. *)
Definition answered {W} (call : RemoteCall) (w : W) (σ : State W) : State W :=
  set_world w (set_calls (calls σ ++ [call]) σ).

(** ** [MCPClient] (mcp_client.py) *)

(** [MCPClient.__init__]. *)
Definition new_client : MCPClient := {| _session := None; _exit_stack := [] |}.

Section MCPClientMethods.
Context {W : Type} (R : Remote W).

(** Enter a context on [self._exit_stack]. *)
Definition push_context (c : ExitContext) : M (State W) unit :=
  modify (fun σ =>
    set_client {| _session := _session (client σ);
                  _exit_stack := c :: _exit_stack (client σ) |} σ).

(** [self._session = s]. *)
Definition assign_session (s : option ClientSession) : M (State W) unit :=
  modify (fun σ =>
    set_client {| _session := s; _exit_stack := _exit_stack (client σ) |} σ).

Definition connect : M (State W) unit :=
  local (stdio_client_enter R);;
  push_context StdioTransport;;
  s ← local (client_session_enter R);
  push_context SessionContext;;
  assign_session (Some s);;
  remote Initialize (session_initialize R).

Definition session : M (State W) ClientSession :=
  σ ← get;
  match _session (client σ) with
  | None => raise (ConnectionError "Client session not initialized. Call connect first.")
  | Some s => mret s
  end.

Definition list_tools : M (State W) (list Tool) :=
  _ ← session;
  remote ListTools (session_list_tools R).

Definition call_tool (tool_name : string) (tool_input : option json)
  : M (State W) (option CallToolResult) :=
  _ ← session;
  remote (CallTool tool_name tool_input) (session_call_tool R tool_name tool_input).

Definition run_prompt (name : string) (arguments : option json)
  : M (State W) (option string) :=
  σ ← get;
  match _session (client σ) with
  | None => raise (ConnectionError "Not connected to the MCP server.")
  | Some _ =>
      _ ← session;
      let arguments_or_empty :=
        match arguments with
        | Some a => if json_bool a then a else JDict []
        | None => JDict []
        end in
      prompt_result ← remote (GetPrompt name arguments_or_empty)
                             (session_get_prompt R name arguments_or_empty);
      match prompt_result with
      | Some (text :: _) => mret (Some text)
      | _ => mret None
      end
  end.

Definition list_prompts : M (State W) (list string) :=
  σ ← get;
  match _session (client σ) with
  | None => raise (ConnectionError "Not connected to the MCP server.")
  | Some _ =>
      _ ← session;
      remote ListPrompts (session_list_prompts R)
  end.

(** The exits of the contexts of a stack, last entered first.  Every exit
    runs; [pending] is the exception to raise once all have run. *)
Fixpoint run_exits (ctxs : list ExitContext) (pending : option exn) : M (State W) unit :=
  match ctxs with
  | [] =>
      match pending with
      | None => mret tt
      | Some e => raise e
      end
  | c :: rest =>
      raised ← try_except (local (context_exit R c);; mret None)
                          (fun e => mret (Some e));
      run_exits rest (match raised with Some e => Some e | None => pending end)
  end.

(** [self._exit_stack.aclose()]. *)
Definition aclose : M (State W) unit :=
  σ ← get;
  modify (fun σ =>
    set_client {| _session := _session (client σ); _exit_stack := [] |} σ);;
  run_exits (_exit_stack (client σ)) None.

Definition cleanup : M (State W) unit :=
  aclose;;
  assign_session None.

End MCPClientMethods.

(** The four operations of the client all fail with [ConnectionError] in
    state [σ], without a remote call or any other change of state. *)
Definition refused {W} (R : Remote W) (σ : State W) : Prop :=
  (∃ m, list_tools R σ = (Raise (ConnectionError m), σ))
  ∧ (∀ name input, ∃ m, call_tool R name input σ = (Raise (ConnectionError m), σ))
  ∧ (∀ name arguments, ∃ m, run_prompt R name arguments σ = (Raise (ConnectionError m), σ))
  ∧ (∃ m, list_prompts R σ = (Raise (ConnectionError m), σ)).

(** ** [Gemini] (models/gemini.py) *)

(** The line feed character, as a string. *)
Definition newline : string := String "010"%char EmptyString.

(** The no-break space U+00A0, as a string. *)
Definition nbsp : string := String "160"%char EmptyString.

(** The [tools] entry of the request: present only for a catalog that is
    not empty. *)
Definition request_tools (tools : option (list GeminiTool)) : option (list GeminiTool) :=
  match tools with
  | Some (t :: ts) => Some (t :: ts)
  | _ => None
  end.

Section GeminiMethods.
Context {W : Type} (R : Remote W).

Definition add_message_to_history (messages : loc) (message : Message)
  : M (State W) unit :=
  list_append messages message.

Definition chat (messages : loc) (tools : option (list GeminiTool))
  : M (State W) (option Response) :=
  contents ← list_items messages;
  let params_tools := request_tools tools in
  try_except
    (response ← remote (GenerateContent contents params_tools)
                       (generate_content R contents params_tools);
     mret (Some response))
    (fun e =>
       match e with
       | InternalServerError _ => print ServerError500;; mret None
       | _ => print (UnexpectedApiError e);; mret None
       end).

Definition text_from_message (response : option Response) : M (State W) string :=
  match response with
  | None => mret EmptyString
  | Some r =>
      match response_text R r with
      | Return text => mret text
      | Raise (ValueError _) | Raise (IndexError _) => mret EmptyString
      | Raise e => raise e
      end
  end.

Definition ask (question : string) (messages_history : loc) : M (State W) string :=
  add_message_to_history messages_history (Msg "user" [Text question]);;
  response ← chat messages_history None;
  match response with
  | None =>
      list_pop messages_history;;
      mret EmptyString
  | Some r =>
      text ← text_from_message (Some r);
      if PyStr.nonempty text then
        add_message_to_history messages_history (Msg "model" [Text text]);;
        mret text
      else
        list_pop messages_history;;
        mret text
  end.

(** The backend's form of one listed tool. *)
Definition gemini_tool (tool : Tool) : GeminiTool :=
  let cleaned_schema :=
    if json_bool (inputSchema tool)
    then clean_schema PyStr.upper (inputSchema tool)
    else JDict [] in
  {| function_declarations :=
       [{| fd_name := tool_name tool;
           fd_description := tool_description tool;
           fd_parameters := cleaned_schema |}] |}.

Definition get_tools : M (State W) (list GeminiTool) :=
  mcp_tools ← list_tools R;
  mret (map gemini_tool mcp_tools).

(** The text of [item] when it is a [TextContent]. *)
Definition item_text (item : ContentItem) : option string :=
  match item with
  | TextContent text => Some text
  | OtherContent => None
  end.

(** The message of the error payload of a failed call. *)
Definition error_message (tool_name : string) (e : exn) : string :=
  "Error executing tool '" +:+ tool_name +:+ "': " +:+ exn_str e.

(** The content of the result part of a call that returned. *)
Definition success_payload (tool_output : option CallToolResult) : string :=
  let items :=
    match tool_output with
    | Some o => ctr_content o
    | None => []
    end in
  json_dumps (JList (map JStr (omap item_text items))).

(** The content of the result part of a call that raised. *)
Definition error_payload (tool_name : string) (e : exn) : string :=
  json_dumps (JDict [("error", JStr (error_message tool_name e))]).

(** One iteration of the loop over [function_calls]: the result part of
    one call. *)
Definition execute_call (call : FunctionCall) : M (State W) Part :=
  let tool_name := fc_name call in
  let tool_input := fc_args call in
  print (CallingTool tool_name tool_input);;
  output_content ←
    try_except
      (tool_output ← call_tool R tool_name tool_input;
       mret (success_payload tool_output))
      (fun e => mret (error_payload tool_name e));
  mret (FunctionResponse tool_name output_content).

Fixpoint execute_calls (function_calls : list FunctionCall) (tool_response_parts : list Part)
  : M (State W) (list Part) :=
  match function_calls with
  | [] => mret tool_response_parts
  | call :: rest =>
      part ← execute_call call;
      execute_calls rest (tool_response_parts ++ [part])
  end.

(** The calls a list of parts requests, in the order of the parts. *)
Definition function_calls_of (ps : list Part) : list FunctionCall :=
  map function_call (List.filter (fun p => FunctionCall_bool (function_call p)) ps).

Definition execute_tool_requests (response : option Response) : M (State W) (list Part) :=
  match response with
  | Some r =>
      match candidates r with
      | c :: _ =>
          match parts (content c) with
          | [] => mret []
          | ps => execute_calls (function_calls_of ps) []
          end
      | [] => mret []
      end
  | None => mret []
  end.

(** The tool calls a response requests: those of the parts of its first
    candidate, in the order of the parts. *)
Definition requested (response : option Response) : list FunctionCall :=
  match response with
  | Some r =>
      match candidates r with
      | c :: _ => function_calls_of (parts (content c))
      | [] => []
      end
  | None => []
  end.

(** The result part for a call and what [call_tool] answered to it. *)
Definition outcome_part (call : FunctionCall) (outcome : result (option CallToolResult))
  : Part :=
  FunctionResponse (fc_name call)
    match outcome with
    | Return tool_output => success_payload tool_output
    | Raise e => error_payload (fc_name call) e
    end.

(** What [call_tool] answers to each call of a batch made in sequence from
    state [σ], and the state after the batch. *)
Fixpoint tool_outcomes (function_calls : list FunctionCall) (σ : State W)
  : list (result (option CallToolResult)) * State W :=
  match function_calls with
  | [] => ([], σ)
  | call :: rest =>
      let (outcome, σ1) :=
        call_tool R (fc_name call) (fc_args call)
          (print (CallingTool (fc_name call) (fc_args call)) σ).2 in
      let (outcomes, σ2) := tool_outcomes rest σ1 in
      (outcome :: outcomes, σ2)
  end.

End GeminiMethods.

(** ** [ChatSession] (chat_session.py) *)

(** How one pass through the body of the [while] loop ends: at [break], at
    a [continue], or at the end of the body. *)
Inductive Flow : Type :=
| Break
| Continue
| Completed.

Section ChatSessionMethods.
Context {W : Type} (R : Remote W).

Definition _add_valid_model_response (response : option Response) (messages : loc)
  : M (State W) unit :=
  match response with
  | Some r =>
      match candidates r with
      | c :: _ =>
          match parts (content c) with
          | [] => mret tt
          | _ => add_message_to_history messages (ModelContent (content c))
          end
      | [] => mret tt
      end
  | None => mret tt
  end.

(** Lines 55-76 of [run]: the user message of the turn, from a slash
    command or from plain text. *)
Definition handle_user_input (user_input : string) (messages_for_this_turn : loc)
  : M (State W) Flow :=
  if PyStr.startswith_slash user_input then
    let parts := PyStr.split (PyStr.strip (PyStr.tail user_input)) in
    match parts with
    | [] => raise (IndexError "list index out of range")
    | prompt_name :: rest =>
        let user_follow_up_text := PyStr.join " " rest in
        print (RunningPrompt prompt_name);;
        try_except
          (prompt_content ← run_prompt R prompt_name (Some (JDict []));
           match prompt_content with
           | Some text =>
               if PyStr.nonempty text then
                 let full_user_message :=
                   PyStr.strip (text +:+ newline +:+ newline +:+ user_follow_up_text) in
                 add_message_to_history messages_for_this_turn
                   (Msg "user" [Text full_user_message]);;
                 mret Completed
               else mret Completed
           | None => mret Completed
           end)
          (fun e => print (ErrorRunningPrompt e);; mret Continue)
    end
  else
    add_message_to_history messages_for_this_turn (Msg "user" [Text user_input]);;
    mret Completed.

(** Lines 89-105 of [run]: run the requested tools and ask the model again.
    The result is the final text, or [None] where the loop continues. *)
Definition tool_round (response : Response) (messages_for_this_turn : loc)
  : M (State W) (option string) :=
  tool_results ← execute_tool_requests R (Some response);
  match tool_results with
  | _ :: _ =>
      add_message_to_history messages_for_this_turn (Msg "tool" tool_results);;
      final_response_obj ← chat R messages_for_this_turn None;
      match final_response_obj with
      | None => mret None
      | Some final =>
          _add_valid_model_response (Some final) messages_for_this_turn;;
          final_text ← text_from_message R (Some final);
          mret (Some final_text)
      end
  | [] =>
      final_text ← text_from_message R (Some response);
      mret (Some final_text)
  end.

(** Lines 80-114 of [run], the main conversational flow: ask the model,
    run the tools it requests, and commit the turn. *)
Definition conversational_flow (messages_for_this_turn : loc) : M (State W) Flow :=
  available_tools ← get_tools R;
  response ← chat R messages_for_this_turn (Some available_tools);
  match response with
  | None => mret Continue
  | Some r =>
      _add_valid_model_response (Some r) messages_for_this_turn;;
      final ← tool_round r messages_for_this_turn;
      match final with
      | None => mret Continue
      | Some final_text =>
          modify (set_history messages_for_this_turn);;
          (if PyStr.nonempty (PyStr.strip final_text)
           then print (FinalText final_text)
           else print NoResponseNotice);;
          mret Completed
      end
  end.

(** The body of the [while] loop, for the line [user_input] read. *)
Definition turn (user_input : string) : M (State W) Flow :=
  if String.eqb (PyStr.lower user_input) "exit" then mret Break
  else
    σ ← get;
    items ← list_items (history σ);
    messages_for_this_turn ← list_new items;
    flow ← handle_user_input user_input messages_for_this_turn;
    match flow with
    | Completed => conversational_flow messages_for_this_turn
    | other => mret other
    end.

(** The [while] loop; [lines] are the lines [input] will read, and reading
    past the last one raises [EOFError]. *)
Fixpoint loop (lines : list string) : M (State W) unit :=
  match lines with
  | [] => raise EOFError
  | user_input :: rest =>
      flow ← turn user_input;
      match flow with
      | Break => mret tt
      | _ => loop rest
      end
  end.

Definition run (lines : list string) : M (State W) unit :=
  try_except (prompts ← list_prompts R; print (Tip prompts))
             (fun e => print (CouldNotFetchPrompts e));;
  loop lines.

End ChatSessionMethods.

(** [ChatSession.__init__] with a client: the history is a new empty list. *)
Definition new_session {W} (w : W) (c : MCPClient) : State W :=
  {| world := w; calls := []; stdout := []; heap := [[]]; client := c; history := 0 |}.

(** The committed history: the items of the list [self.history] refers to. *)
Definition committed {W} (σ : State W) : list Message := heap σ !!! history σ.

(** Whether a message has the role ["tool"]. *)
Definition is_tool_message (m : Message) : bool := String.eqb (message_role m) "tool".

(** Every reference the session holds is to an allocated list. *)
Definition well_formed {W} (σ : State W) : Prop := history σ < length (heap σ).

(** ** A scripted collaborator

    A concrete [Remote], used to run the program on examples: every kind
    of request is answered from a list of prepared replies, in order, and
    fails once its list is used up. *)

Record Script : Type := {
  on_connect : list (result unit);
  on_exit : list (result unit);
  on_list_tools : list (result (list Tool));
  on_call_tool : list (result (option CallToolResult));
  on_get_prompt : list (result (option (list string)));
  on_list_prompts : list (result (list string));
  on_generate : list (result Response)
}.

Definition exhausted {A} : result A := Raise (OtherException "RuntimeError" "no reply left").

Definition next_reply {A} (replies : list (result A)) : result A * list (result A) :=
  match replies with
  | [] => (exhausted, [])
  | r :: rest => (r, rest)
  end.

(** The [text] accessor: the texts of the parts of the first candidate,
    joined; [ValueError] when there is no part or a part is not text. *)
Fixpoint parts_text (ps : list Part) : result string :=
  match ps with
  | [] => Return EmptyString
  | Text t :: rest =>
      match parts_text rest with
      | Return s => Return (t +:+ s)
      | Raise e => Raise e
      end
  | _ :: _ => Raise (ValueError "Could not convert part to text.")
  end.

Definition quick_text (r : Response) : result string :=
  match candidates r with
  | [] => Raise (ValueError "No candidates.")
  | c :: _ =>
      match parts (content c) with
      | [] => Raise (ValueError "No parts.")
      | ps => parts_text ps
      end
  end.

Definition scripted : Remote Script := {|
  stdio_client_enter w :=
    let (r, rest) := next_reply (on_connect w) in
    (r, {| on_connect := rest; on_exit := on_exit w; on_list_tools := on_list_tools w;
           on_call_tool := on_call_tool w; on_get_prompt := on_get_prompt w;
           on_list_prompts := on_list_prompts w; on_generate := on_generate w |});
  client_session_enter w :=
    let (r, rest) := next_reply (on_connect w) in
    (match r with Return _ => Return TheSession | Raise e => Raise e end,
     {| on_connect := rest; on_exit := on_exit w; on_list_tools := on_list_tools w;
        on_call_tool := on_call_tool w; on_get_prompt := on_get_prompt w;
        on_list_prompts := on_list_prompts w; on_generate := on_generate w |});
  session_initialize w :=
    let (r, rest) := next_reply (on_connect w) in
    (r, {| on_connect := rest; on_exit := on_exit w; on_list_tools := on_list_tools w;
           on_call_tool := on_call_tool w; on_get_prompt := on_get_prompt w;
           on_list_prompts := on_list_prompts w; on_generate := on_generate w |});
  context_exit _ w :=
    let (r, rest) := next_reply (on_exit w) in
    (r, {| on_connect := on_connect w; on_exit := rest; on_list_tools := on_list_tools w;
           on_call_tool := on_call_tool w; on_get_prompt := on_get_prompt w;
           on_list_prompts := on_list_prompts w; on_generate := on_generate w |});
  session_list_tools w :=
    let (r, rest) := next_reply (on_list_tools w) in
    (r, {| on_connect := on_connect w; on_exit := on_exit w; on_list_tools := rest;
           on_call_tool := on_call_tool w; on_get_prompt := on_get_prompt w;
           on_list_prompts := on_list_prompts w; on_generate := on_generate w |});
  session_call_tool _ _ w :=
    let (r, rest) := next_reply (on_call_tool w) in
    (r, {| on_connect := on_connect w; on_exit := on_exit w; on_list_tools := on_list_tools w;
           on_call_tool := rest; on_get_prompt := on_get_prompt w;
           on_list_prompts := on_list_prompts w; on_generate := on_generate w |});
  session_get_prompt _ _ w :=
    let (r, rest) := next_reply (on_get_prompt w) in
    (r, {| on_connect := on_connect w; on_exit := on_exit w; on_list_tools := on_list_tools w;
           on_call_tool := on_call_tool w; on_get_prompt := rest;
           on_list_prompts := on_list_prompts w; on_generate := on_generate w |});
  session_list_prompts w :=
    let (r, rest) := next_reply (on_list_prompts w) in
    (r, {| on_connect := on_connect w; on_exit := on_exit w; on_list_tools := on_list_tools w;
           on_call_tool := on_call_tool w; on_get_prompt := on_get_prompt w;
           on_list_prompts := rest; on_generate := on_generate w |});
  generate_content _ _ w :=
    let (r, rest) := next_reply (on_generate w) in
    (r, {| on_connect := on_connect w; on_exit := on_exit w; on_list_tools := on_list_tools w;
           on_call_tool := on_call_tool w; on_get_prompt := on_get_prompt w;
           on_list_prompts := on_list_prompts w; on_generate := rest |});
  response_text := quick_text
|}.

(** A response made of the given parts. *)
Definition response_of (ps : list Part) : Response :=
  {| candidates := [{| content := {| parts := ps |} |}] |}.

(** The request [schedule_meeting(topic="Q3")]. *)
Definition schedule_q3 : FunctionCall :=
  {| fc_name := "schedule_meeting"; fc_args := Some (JDict [("topic", JStr "Q3")]) |}.

(** A script with no reply prepared. *)
Definition silent : Script :=
  {| on_connect := []; on_exit := []; on_list_tools := []; on_call_tool := [];
     on_get_prompt := []; on_list_prompts := []; on_generate := [] |}.

(** A backend that refuses the request with an error that is not an
    [InternalServerError]. *)
Definition refusing : Script :=
  {| on_connect := []; on_exit := []; on_list_tools := []; on_call_tool := [];
     on_get_prompt := []; on_list_prompts := [];
     on_generate := [Raise (OtherException "PermissionDenied" "403 API key not valid")] |}.

(** A transport whose two contexts close without error. *)
Definition closing : Script :=
  {| on_connect := []; on_exit := [Return tt; Return tt]; on_list_tools := [];
     on_call_tool := []; on_get_prompt := []; on_list_prompts := []; on_generate := [] |}.

(** A backend that answers once, with a response that has no text. *)
Definition speechless : Script :=
  {| on_connect := []; on_exit := []; on_list_tools := []; on_call_tool := [];
     on_get_prompt := []; on_list_prompts := [];
     on_generate := [Return (response_of [])] |}.

(** A model that asks for [schedule_meeting(topic="Q3")] and then answers
    in text, and a tool server whose transport fails on the call. *)
Definition broken_tool : Script :=
  {| on_connect := []; on_exit := []; on_list_tools := [Return []];
     on_call_tool := [Raise (OtherException "McpError" "Connection closed")];
     on_get_prompt := []; on_list_prompts := [];
     on_generate := [Return (response_of [Call schedule_q3]);
                     Return (response_of [Text "The meeting could not be scheduled."])] |}.

(** A backend that fails with a server error on the first request. *)
Definition overloaded : Script :=
  {| on_connect := []; on_exit := []; on_list_tools := [Return []];
     on_call_tool := []; on_get_prompt := []; on_list_prompts := [];
     on_generate := [Raise (InternalServerError "500 Internal error")] |}.

(** A client whose [connect] has returned. *)
Definition connected_client : MCPClient :=
  {| _session := Some TheSession; _exit_stack := [SessionContext; StdioTransport] |}.

(** ** Relations between states *)

(** A computation keeps a relation between states when every run, ending
    either way, leaves the final state related to the initial one. *)
Definition keeps {Σ} (Q : relation Σ) {A} (c : M Σ A) : Prop := ∀ σ, Q σ (c σ).2.

(** The lists and [self.history] are as before. *)
Definition same_store {W} (σ σ' : State W) : Prop :=
  heap σ' = heap σ ∧ history σ' = history σ.

(** As [same_store], except for the items of the list at [l]. *)
Definition same_store_but {W} (l : loc) (σ σ' : State W) : Prop :=
  history σ' = history σ
  ∧ length (heap σ') = length (heap σ)
  ∧ ∀ l', l' ≠ l -> heap σ' !! l' = heap σ !! l'.

(** The client is as before. *)
Definition same_client {W} (σ σ' : State W) : Prop := client σ' = client σ.

(** The list at [l] has, after, the items it had before, and possibly
    more at its end. *)
Definition grows {W} (l : loc) (σ σ' : State W) : Prop :=
  heap σ !!! l `prefix_of` heap σ' !!! l.

(** A tool server with no tool and a model that answers once, in text. *)
Definition answering (text : string) : Script :=
  {| on_connect := []; on_exit := []; on_list_tools := [Return []]; on_call_tool := [];
     on_get_prompt := []; on_list_prompts := [Return ["minutes"; "kickoff"]];
     on_generate := [Return (response_of [Text text])] |}.

(** A tool server that answers one prompt request, with messages of the
    given texts. *)
Definition prompting (texts : list string) : Script :=
  {| on_connect := []; on_exit := []; on_list_tools := []; on_call_tool := [];
     on_get_prompt := [Return (Some texts)]; on_list_prompts := []; on_generate := [] |}.

(** A transport and a session context that open, a handshake that times
    out, and a tool server that would list no tool. *)
Definition timing_out : Script :=
  {| on_connect := [Return tt; Return tt; Raise (OtherException "McpError" "timeout")];
     on_exit := []; on_list_tools := [Return []]; on_call_tool := [];
     on_get_prompt := []; on_list_prompts := []; on_generate := [] |}.

(** A session context that closes and a transport whose exit fails, with a
    tool server that would list one prompt. *)
Definition stuck : Script :=
  {| on_connect := [];
     on_exit := [Return tt; Raise (OtherException "ProcessLookupError" "no such process")];
     on_list_tools := []; on_call_tool := []; on_get_prompt := [];
     on_list_prompts := [Return ["minutes"]]; on_generate := [] |}.

(** The request [add_attendee(topic="Q3", name="Alice")]. *)
Definition add_alice : FunctionCall :=
  {| fc_name := "add_attendee";
     fc_args := Some (JDict [("topic", JStr "Q3"); ("name", JStr "Alice")]) |}.

(** A model that asks for two calls in one response and then answers in
    text, and a tool server that answers the first call and fails on the
    second. *)
Definition batching : Script :=
  {| on_connect := []; on_exit := []; on_list_tools := [Return []];
     on_call_tool :=
       [Return (Some {| ctr_content := [TextContent "Scheduled."]; isError := false |});
        Raise (OtherException "McpError" "Connection closed")];
     on_get_prompt := []; on_list_prompts := [];
     on_generate := [Return (response_of [Call schedule_q3; Call add_alice]);
                     Return (response_of [Text "Q3 is scheduled."])] |}.

(** ** The meeting server (mcp_server.py) *)

(** The value stored for a meeting:
    [{"attendees": [...], "action_items": [...]}]. *)
Record Meeting : Type := {
  attendees : list string;
  action_items : list string
}.

(** The server: the dictionary [meetings], in insertion order, and the
    lines printed so far. *)
Record Server : Type := {
  meetings : list (string * Meeting);
  printed : list string
}.

(** The server when the module is loaded: [meetings = {}]. *)
Definition new_server : Server := {| meetings := []; printed := [] |}.

(** [meetings[topic]], for a topic that may be missing. *)
Fixpoint store_get (d : list (string * Meeting)) (topic : string) : option Meeting :=
  match d with
  | [] => None
  | (k, m) :: r => if String.eqb k topic then Some m else store_get r topic
  end.

(** [topic in meetings]. *)
Definition store_mem (d : list (string * Meeting)) (topic : string) : bool :=
  match store_get d topic with
  | Some _ => true
  | None => false
  end.

(** [meetings[topic] = m]. *)
Fixpoint store_set (d : list (string * Meeting)) (topic : string) (m : Meeting)
  : list (string * Meeting) :=
  match d with
  | [] => [(topic, m)]
  | (k, m') :: r =>
      if String.eqb k topic then (k, m) :: r else (k, m') :: store_set r topic m
  end.

(** A change made in place to the value [meetings[topic]]. *)
Fixpoint store_alter (f : Meeting -> Meeting) (d : list (string * Meeting)) (topic : string)
  : list (string * Meeting) :=
  match d with
  | [] => []
  | (k, m) :: r =>
      if String.eqb k topic then (k, f m) :: r else (k, m) :: store_alter f r topic
  end.

(** [list(meetings.keys())]. *)
Definition topics (s : Server) : list string := (meetings s).*1.

(** [print(line)] on the server. *)
Definition server_print (line : string) (s : Server) : Server :=
  {| meetings := meetings s; printed := printed s ++ [line] |}.

Definition with_meetings (d : list (string * Meeting)) (s : Server) : Server :=
  {| meetings := d; printed := printed s |}.

Definition schedule_meeting (topic : string) (s : Server) : string * Server :=
  let s := server_print ("Executing: schedule_meeting for topic '" +:+ topic +:+ "'") s in
  if store_mem (meetings s) topic then
    ("Error: A meeting with the topic '" +:+ topic +:+ "' already exists.", s)
  else
    ("Successfully scheduled new meeting: '" +:+ topic +:+ "'",
     with_meetings
       (store_set (meetings s) topic {| attendees := []; action_items := [] |}) s).

Definition add_attendee (topic name : string) (s : Server) : string * Server :=
  let s := server_print ("Executing: add_attendee '" +:+ name +:+ "' to '" +:+ topic +:+ "'") s in
  if negb (store_mem (meetings s) topic) then
    ("Error: Meeting '" +:+ topic +:+ "' not found.", s)
  else
    ("Successfully added attendee '" +:+ name +:+ "' to meeting '" +:+ topic +:+ "'.",
     with_meetings
       (store_alter
          (fun m => {| attendees := attendees m ++ [name]; action_items := action_items m |})
          (meetings s) topic) s).

Definition add_action_item (topic item : string) (s : Server) : string * Server :=
  let s := server_print ("Executing: add_action_item '" +:+ item +:+ "' for '" +:+ topic +:+ "'") s in
  if negb (store_mem (meetings s) topic) then
    ("Error: Meeting '" +:+ topic +:+ "' not found.", s)
  else
    ("Successfully added action item to meeting '" +:+ topic +:+ "': '" +:+ item +:+ "'",
     with_meetings
       (store_alter
          (fun m => {| attendees := attendees m; action_items := action_items m ++ [item] |})
          (meetings s) topic) s).

(** The text [get_meeting_details] returns for a meeting that exists. *)
Definition details_text (topic : string) (details : Meeting) : string :=
  let attendees_joined :=
    match attendees details with
    | [] => "None"
    | l => PyStr.join ", " l
    end in
  let action_items_formatted :=
    match action_items details with
    | [] => "No action items."
    | l => PyStr.join newline (map (fun item => "- " +:+ item) l)
    end in
  "Details for meeting '" +:+ topic +:+ "':" +:+ newline
    +:+ "Attendees: " +:+ attendees_joined +:+ newline
    +:+ "Action Items:" +:+ newline +:+ action_items_formatted.

Definition get_meeting_details (topic : string) (s : Server) : string * Server :=
  let s := server_print ("Executing: get_meeting_details for '" +:+ topic +:+ "'") s in
  match store_get (meetings s) topic with
  | None => ("Error: Meeting '" +:+ topic +:+ "' not found.", s)
  | Some details => (details_text topic details, s)
  end.

Definition list_all_meetings (s : Server) : string * Server :=
  let s := server_print "Executing: list_all_meetings" s in
  match meetings s with
  | [] => ("There are no meetings scheduled at the moment.", s)
  | _ => (PyStr.join newline (topics s), s)
  end.

(** A call of one of the five tools. *)
Inductive ToolRequest : Type :=
| ScheduleMeeting (topic : string)
| AddAttendee (topic name : string)
| AddActionItem (topic item : string)
| GetMeetingDetails (topic : string)
| ListAllMeetings.

Definition serve (r : ToolRequest) (s : Server) : string * Server :=
  match r with
  | ScheduleMeeting topic => schedule_meeting topic s
  | AddAttendee topic name => add_attendee topic name s
  | AddActionItem topic item => add_action_item topic item s
  | GetMeetingDetails topic => get_meeting_details topic s
  | ListAllMeetings => list_all_meetings s
  end.

(** The replies to a sequence of calls, and the server after them. *)
Fixpoint serve_all (rs : list ToolRequest) (s : Server) : list string * Server :=
  match rs with
  | [] => ([], s)
  | r :: rest =>
      let (reply, s1) := serve r s in
      let (replies, s2) := serve_all rest s1 in
      (reply :: replies, s2)
  end.

(** ** The sampling callback (models/gemini.py) *)

(** The content of a message of a sampling request; its [type] is
    ["text"] for [SamplingText] only. *)
Inductive SamplingContent : Type :=
| SamplingText (text : string)
| SamplingImage
| SamplingAudio.

Record SamplingMessage : Type := {
  sm_role : string;
  sm_content : SamplingContent
}.

(** A value of the generation settings: a count of tokens or a number of
    the type [F] of the sampling parameters. *)
Inductive ConfigValue (F : Type) : Type :=
| ConfigInt (n : Z)
| ConfigNumber (x : F).
Arguments ConfigInt {F} n.
Arguments ConfigNumber {F} x.

Record CreateMessageRequestParams (F : Type) : Type := {
  sp_messages : list SamplingMessage;
  max_tokens : Z;
  temperature : option F;
  top_p : option F
}.
Arguments sp_messages {F} _.
Arguments max_tokens {F} _.
Arguments temperature {F} _.
Arguments top_p {F} _.

Record CreateMessageResult : Type := {
  cmr_role : string;
  cmr_model : string;
  cmr_text : string
}.

(** The loop over [params.messages]: the messages for the backend, each
    [{"role": role, "parts": [text]}]. *)
Fixpoint sampling_messages (msgs : list SamplingMessage) (messages : list (string * list string))
  : list (string * list string) :=
  match msgs with
  | [] => messages
  | msg :: rest =>
      let role := if String.eqb (sm_role msg) "assistant" then "model" else sm_role msg in
      match sm_content msg with
      | SamplingText text => sampling_messages rest (messages ++ [(role, [text])])
      | _ => sampling_messages rest messages
      end
  end.

(** The dictionary [generation_config_args]. *)
Definition generation_config_args {F} (params : CreateMessageRequestParams F)
  : list (string * ConfigValue F) :=
  let args := [("max_output_tokens", ConfigInt (max_tokens params))] in
  let args :=
    match temperature params with
    | Some t => args ++ [("temperature", ConfigNumber t)]
    | None => args
    end in
  match top_p params with
  | Some p => args ++ [("top_p", ConfigNumber p)]
  | None => args
  end.

Section SamplingCallback.
Context {W F : Type} (R : Remote W).

(** [self.model.generate_content_async] and [self.model.model_name]. *)
Variable generate_content_async :
  list (string * list string) -> list (string * ConfigValue F) -> W -> result Response * W.
Variable model_name : string.

(** The callback, on the state of the backend and the lines printed. *)
Definition sampling_callback (params : CreateMessageRequestParams F)
  : M (W * list string) CreateMessageResult :=
  modify (fun st => (st.1, st.2 ++ ["--- Server triggered sampling callback ---"]));;
  let messages := sampling_messages (sp_messages params) [] in
  let generation_config := generation_config_args params in
  response ← (fun st =>
                let (r, w) := generate_content_async messages generation_config st.1 in
                (r, (w, st.2)));
  match response_text R response with
  | Return text =>
      mret {| cmr_role := "assistant"; cmr_model := model_name; cmr_text := text |}
  | Raise e => raise e
  end.

End SamplingCallback.
(** * Properties *)

(** ** [clean_schema] *)

Example clean_sample :
  clean_schema PyStr.upper sample_schema =
  JDict [("type", JStr "OBJECT");
         ("properties",
           JDict [("topic", JDict [("type", JStr "STRING")]);
                  ("attendees",
                    JDict [("type", JStr "ARRAY");
                           ("items", JDict [("type", JStr "STRING")])])]);
         ("required", JList [JStr "topic"])].
Proof. reflexivity. Qed.

Lemma upper_char_idem (c : ascii) : PyStr.upper_char (PyStr.upper_char c) = PyStr.upper_char c.
Proof. destruct c as [[] [] [] [] [] [] [] []]; reflexivity. Qed.

Lemma upper_idem (s : string) : PyStr.upper (PyStr.upper s) = PyStr.upper s.
Proof.
  induction s as [|c s IH]; [reflexivity|].
  cbn. rewrite upper_char_idem. f_equal. exact IH.
Qed.

Lemma clean_schema_dict upper kvs :
  clean_schema upper (JDict kvs) = JDict (clean_items upper kvs []).
Proof.
  unfold clean_schema at 1. fold (clean_schema upper). f_equal.
  generalize (@nil (string * json)).
  induction kvs as [|[k v] kvs IH]; intros acc; [reflexivity|].
  cbn. destruct (String.eqb k "title"); apply IH.
Qed.

(** *** Dictionaries *)

Abbreviation keys d := (d.*1).

Lemma dict_set_fresh d k v : k ∉ keys d -> dict_set d k v = d ++ [(k, v)].
Proof.
  induction d as [|[k' v'] d IH]; intros Hk; [reflexivity|].
  csimpl in *. apply not_elem_of_cons in Hk as [Hne Hk].
  destruct (String.eqb_spec k' k); [congruence|]. by rewrite IH.
Qed.

Lemma dict_set_Forall (P : string * json -> Prop) d k v :
  Forall P d -> P (k, v) -> Forall P (dict_set d k v).
Proof.
  induction 1 as [|[k' v'] d Hx Hd IH]; intros Hkv; simpl.
  - by constructor.
  - destruct (String.eqb k' k); constructor; auto.
Qed.

Lemma keys_dict_set d k v :
  keys (dict_set d k v) = if bool_decide (k ∈ keys d) then keys d else keys d ++ [k].
Proof.
  induction d as [|[k' v'] d IH]; csimpl; [reflexivity|].
  destruct (String.eqb_spec k' k) as [->|Hne]; csimpl.
  - rewrite bool_decide_eq_true_2; [reflexivity|]. apply elem_of_cons; auto.
  - rewrite IH. case_bool_decide as Hin.
    + rewrite bool_decide_eq_true_2; [reflexivity|]. apply elem_of_cons; auto.
    + rewrite bool_decide_eq_false_2; [reflexivity|].
      intros [?|?]%elem_of_cons; congruence.
Qed.

Lemma dict_set_NoDup d k v : NoDup (keys d) -> NoDup (keys (dict_set d k v)).
Proof.
  intros Hd. rewrite keys_dict_set. case_bool_decide; [done|].
  apply NoDup_app. split_and!; [done| |apply NoDup_singleton].
  intros x Hx ->%list_elem_of_singleton. done.
Qed.

Lemma dict_get_None d k : k ∉ keys d -> dict_get d k = None.
Proof.
  induction d as [|[k' v'] d IH]; intros Hk; [reflexivity|].
  csimpl in *. apply not_elem_of_cons in Hk as [Hne Hk]. rewrite IH by done.
  destruct (String.eqb_spec k' k); congruence.
Qed.

Lemma dict_get_set d k v k' :
  NoDup (keys d) ->
  dict_get (dict_set d k v) k' = if String.eqb k k' then Some v else dict_get d k'.
Proof.
  induction d as [|[k0 v0] d IH]; intros Hd; csimpl.
  - destruct (String.eqb k k'); reflexivity.
  - csimpl in Hd. apply NoDup_cons in Hd as [Hk0 Hd].
    destruct (String.eqb_spec k0 k) as [->|Hne]; csimpl.
    + destruct (String.eqb_spec k k') as [Heq|Hne]; [subst k'|reflexivity].
      by rewrite dict_get_None.
    + rewrite IH by done.
      destruct (String.eqb_spec k k') as [Heq|Hne']; [subst k'|reflexivity].
      reflexivity.
Qed.

(** *** The loop over the items *)

Section CleanSchemaFacts.
Variable upper : string -> string.

Abbreviation clean := (clean_schema upper).
Abbreviation entry := (clean_value upper (clean_schema upper)).

Lemma clean_items_Forall (P : string * json -> Prop) kvs acc :
  Forall P acc ->
  Forall (fun kv => kv.1 ≠ "title" -> P (kv.1, entry kv.1 kv.2)) kvs ->
  Forall P (clean_items upper kvs acc).
Proof.
  intros Hacc Hkvs. revert acc Hacc.
  induction Hkvs as [|[k v] kvs Hkv _ IH]; intros acc Hacc; simpl; [done|].
  destruct (String.eqb_spec k "title") as [->|Hne]; [by apply IH|].
  apply IH, dict_set_Forall; auto.
Qed.

Lemma clean_items_NoDup kvs acc :
  NoDup (keys acc) -> NoDup (keys (clean_items upper kvs acc)).
Proof.
  revert acc. induction kvs as [|[k v] kvs IH]; intros acc Hacc; simpl; [done|].
  destruct (String.eqb k "title"); [by apply IH|].
  by apply IH, dict_set_NoDup.
Qed.

(** Items that the loop would store unchanged, under keys not yet present,
    are appended as they are. *)
Lemma clean_items_stable d acc :
  NoDup (keys (acc ++ d)) ->
  Forall (fun kv => kv.1 ≠ "title" ∧ entry kv.1 kv.2 = kv.2) d ->
  clean_items upper d acc = acc ++ d.
Proof.
  intros Hnd Hd. revert acc Hnd.
  induction Hd as [|[k v] d [Hk Hv] _ IH]; intros acc Hnd; simpl in *.
  - by rewrite app_nil_r.
  - destruct (String.eqb_spec k "title") as [|_]; [done|].
    rewrite Hv, dict_set_fresh.
    + rewrite IH; rewrite <- app_assoc; done.
    + rewrite fmap_app in Hnd. apply NoDup_app in Hnd as (_ & Hdisj & _).
      intros Hin. apply (Hdisj k Hin). csimpl. apply elem_of_cons; auto.
Qed.

Lemma clean_items_get kvs acc k :
  NoDup (keys acc) ->
  dict_get (clean_items upper kvs acc) k =
    match dict_get kvs k with
    | Some v => if String.eqb k "title" then dict_get acc k else Some (entry k v)
    | None => dict_get acc k
    end.
Proof.
  revert acc. induction kvs as [|[k0 v0] kvs IH]; intros acc Hacc; simpl; [done|].
  destruct (String.eqb_spec k0 "title") as [->|Hne].
  - rewrite IH by done. destruct (dict_get kvs k); [done|].
    destruct (String.eqb_spec "title" k) as [<-|Hne]; [|done].
    by rewrite String.eqb_refl.
  - rewrite IH by (by apply dict_set_NoDup). rewrite dict_get_set by done.
    destruct (dict_get kvs k) as [v|].
    + destruct (String.eqb_spec k "title") as [->|_]; [|done].
      destruct (String.eqb_spec k0 "title"); done.
    + destruct (String.eqb_spec k0 k) as [->|_]; [|done].
      destruct (String.eqb_spec k "title"); done.
Qed.

Lemma entry_idem k v :
  (∀ s, upper (upper s) = upper s) ->
  clean (clean v) = clean v ->
  entry k (entry k v) = entry k v.
Proof.
  intros Hup IH. unfold clean_value.
  destruct v as [| | |s| |]; try exact IH.
  destruct (String.eqb k "type"); [by rewrite Hup | done].
Qed.

Lemma clean_schema_idempotent x :
  (∀ s, upper (upper s) = upper s) -> clean (clean x) = clean x.
Proof.
  intros Hup. induction x as [| | | |l IH|kvs IH] using json_nested_ind; try done.
  - simpl. f_equal. rewrite <- list_fmap_compose.
    apply Forall_fmap_ext_1. exact IH.
  - rewrite !clean_schema_dict. f_equal.
    apply (clean_items_stable _ []).
    + apply clean_items_NoDup. constructor.
    + apply clean_items_Forall; [constructor|].
      eapply Forall_impl; [exact IH|].
      intros [k v] Hv Hk; simpl in *. split; [done|]. by apply entry_idem.
Qed.

Lemma entry_no_title k v : has_title (clean v) = false -> has_title (entry k v) = false.
Proof.
  intros IH. unfold clean_value.
  destruct v; try exact IH. by destruct (String.eqb k "type").
Qed.

Lemma clean_schema_no_title x : has_title (clean x) = false.
Proof.
  induction x as [| | | |l IH|kvs IH] using json_nested_ind; try done.
  - simpl. apply not_true_is_false. rewrite existsb_exists.
    intros (y & Hy & Ht). apply in_map_iff in Hy as (z & <- & Hz).
    rewrite Forall_forall in IH. rewrite (IH z) in Ht; [done|].
    by apply list_elem_of_In.
  - rewrite clean_schema_dict. simpl.
    apply not_true_is_false. rewrite existsb_exists. intros ([k v] & Hin & Ht).
    assert (Forall (fun kv => String.eqb kv.1 "title" || has_title kv.2 = false)
              (clean_items upper kvs [])) as Hall.
    { apply clean_items_Forall; [constructor|].
      eapply Forall_impl; [exact IH|].
      intros [k' v'] Hv Hk; simpl in *.
      apply String.eqb_neq in Hk. rewrite Hk. simpl. by apply entry_no_title. }
    rewrite Forall_forall in Hall. specialize (Hall (k, v)).
    rewrite Hall in Ht; [done|]. by apply list_elem_of_In.
Qed.

Lemma clean_schema_types_upper p :
  ∀ x s,
    Key "title" ∉ p ->
    at_path (p ++ [Key "type"]) x = Some (JStr s) ->
    at_path (p ++ [Key "type"]) (clean x) = Some (JStr (upper s)).
Proof.
  induction p as [|st p IH]; intros x s Hp Hx.
  - destruct x as [| | | | |kvs]; try done.
    rewrite clean_schema_dict. simpl in *.
    rewrite clean_items_get by constructor.
    destruct (dict_get kvs "type") as [v|]; [|done].
    simpl in *. by inversion Hx.
  - apply not_elem_of_cons in Hp as [Hst Hp].
    destruct st as [k|i], x as [| | | |l|kvs]; try done.
    + rewrite clean_schema_dict. simpl in *.
      rewrite clean_items_get by constructor.
      destruct (dict_get kvs k) as [v|]; [|done]. simpl in *.
      destruct (String.eqb_spec k "title") as [->|_]; [done|]. simpl.
      assert (entry k v = clean v) as ->.
      { destruct v; try done. destruct p as [|[]]; simpl in Hx; done. }
      by apply IH.
    + simpl in *. rewrite list_lookup_fmap.
      destruct (l !! i) as [v|]; [|done]. simpl in *. by apply IH.
Qed.

End CleanSchemaFacts.

(** C4. For every JSON-shaped value [x], nested to any depth, cleaning is
    idempotent ([clean_schema (clean_schema x) = clean_schema x]), no
    dictionary of [clean_schema x] has the key ["title"] at any depth, and
    every string stored under a key ["type"] (at a path that does not go
    through a ["title"] key) is replaced by its upper-case form.  [upper]
    stands for [str.upper], of which only idempotence is used. *)
Theorem clean_schema_idempotent_without_title
    (upper : string -> string) (Hupper : ∀ s, upper (upper s) = upper s) (x : json) :
  clean_schema upper (clean_schema upper x) = clean_schema upper x
  ∧ has_title (clean_schema upper x) = false
  ∧ ∀ p s,
      Key "title" ∉ p ->
      at_path (p ++ [Key "type"]) x = Some (JStr s) ->
      at_path (p ++ [Key "type"]) (clean_schema upper x) = Some (JStr (upper s)).
Proof.
  split_and!.
  - by apply clean_schema_idempotent.
  - apply clean_schema_no_title.
  - intros p s. apply clean_schema_types_upper.
Qed.

Lemma clean_schema_idempotent_without_title_witness :
  clean_schema PyStr.upper (clean_schema PyStr.upper sample_schema)
    = clean_schema PyStr.upper sample_schema
  ∧ has_title (clean_schema PyStr.upper sample_schema) = false
  ∧ at_path [Key "properties"; Key "topic"; Key "type"]
      (clean_schema PyStr.upper sample_schema) = Some (JStr "STRING").
Proof.
  destruct (clean_schema_idempotent_without_title PyStr.upper upper_idem sample_schema)
    as (H1 & H2 & H3).
  split_and!; [exact H1 | exact H2 |].
  apply (H3 [Key "properties"; Key "topic"] "string"); [|reflexivity].
  apply (bool_decide_unpack _). vm_compute. exact I.
Defined.

(** ** The effect monad *)

Section MonadFacts.
Context {Σ : Type}.

Lemma bind_eq {A B} (c : M Σ A) (k : A -> M Σ B) σ :
  (c ≫= k) σ =
    match c σ with
    | (Return a, σ') => k a σ'
    | (Raise e, σ') => (Raise e, σ')
    end.
Proof. reflexivity. Qed.

Lemma bind_return {A B} (c : M Σ A) (k : A -> M Σ B) σ a σ' :
  c σ = (Return a, σ') -> (c ≫= k) σ = k a σ'.
Proof. intros H. by rewrite bind_eq, H. Qed.

Lemma bind_raise {A B} (c : M Σ A) (k : A -> M Σ B) σ e σ' :
  c σ = (Raise e, σ') -> (c ≫= k) σ = (Raise e, σ').
Proof. intros H. by rewrite bind_eq, H. Qed.

Lemma try_except_eq {A} (c : M Σ A) (h : exn -> M Σ A) σ :
  try_except c h σ =
    match c σ with
    | (Return a, σ') => (Return a, σ')
    | (Raise e, σ') => h e σ'
    end.
Proof. reflexivity. Qed.

Section Keeps.
Context (Q : relation Σ) `{!PreOrder Q}.

Lemma keeps_ret {A} (a : A) : keeps Q (mret a : M Σ A).
Proof. intros σ. simpl. reflexivity. Qed.

Lemma keeps_raise {A} (e : exn) : keeps Q (raise e : M Σ A).
Proof. intros σ. simpl. reflexivity. Qed.

Lemma keeps_get : keeps Q (get : M Σ Σ).
Proof. intros σ. simpl. reflexivity. Qed.

Lemma keeps_bind {A B} (c : M Σ A) (k : A -> M Σ B) :
  keeps Q c -> (∀ a, keeps Q (k a)) -> keeps Q (c ≫= k).
Proof.
  intros Hc Hk σ. rewrite bind_eq. specialize (Hc σ).
  destruct (c σ) as [[a|e] σ']; simpl in *; [|done].
  etransitivity; [exact Hc|apply Hk].
Qed.

Lemma keeps_try_except {A} (c : M Σ A) (h : exn -> M Σ A) :
  keeps Q c -> (∀ e, keeps Q (h e)) -> keeps Q (try_except c h).
Proof.
  intros Hc Hh σ. rewrite try_except_eq. specialize (Hc σ).
  destruct (c σ) as [[a|e] σ']; simpl in *; [done|].
  etransitivity; [exact Hc|apply Hh].
Qed.

Lemma keeps_modify (f : Σ -> Σ) : (∀ σ, Q σ (f σ)) -> keeps Q (modify f).
Proof. intros Hf σ. apply Hf. Qed.

End Keeps.

Lemma keeps_run (Q : relation Σ) {A} (c : M Σ A) σ r σ' :
  keeps Q c -> c σ = (r, σ') -> Q σ σ'.
Proof. intros Hc Hrun. specialize (Hc σ). by rewrite Hrun in Hc. Qed.

End MonadFacts.

Create HintDb keeps.
#[export] Hint Resolve keeps_ret keeps_raise keeps_get : keeps.

(** Splits a goal [keeps Q c] along the structure of [c]. *)
Ltac keeps_step :=
  lazymatch goal with
  | |- keeps _ (mbind _ _) => apply keeps_bind; [typeclasses eauto| |intros ?]
  | |- keeps _ (try_except _ _) => apply keeps_try_except; [typeclasses eauto| |intros ?]
  | |- keeps _ (mret _) => apply keeps_ret; typeclasses eauto
  | |- keeps _ (raise _) => apply keeps_raise; typeclasses eauto
  | |- keeps _ get => apply keeps_get; typeclasses eauto
  | |- keeps _ (match ?x with _ => _ end) => destruct x
  | |- keeps _ (if ?x then _ else _) => destruct x
  | |- keeps _ (let _ := _ in _) => cbv zeta
  end.

Ltac keeps_auto := repeat keeps_step; eauto with keeps.

(** ** What the methods leave alone *)

Section Frames.
Context {W : Type}.

#[global] Instance same_store_preorder : PreOrder (@same_store W).
Proof.
  split.
  - by intros σ.
  - intros σ1 σ2 σ3 [H1 H2] [H3 H4]. split; congruence.
Qed.

#[global] Instance same_store_but_preorder l : PreOrder (@same_store_but W l).
Proof.
  split.
  - by intros σ.
  - intros σ1 σ2 σ3 (H1 & H2 & H3) (H4 & H5 & H6). split_and!; [congruence..|].
    intros l' Hl'. by rewrite H6, H3.
Qed.

#[global] Instance same_client_preorder : PreOrder (@same_client W).
Proof.
  split.
  - by intros σ.
  - intros σ1 σ2 σ3 H1 H2. unfold same_client in *. congruence.
Qed.

Lemma same_store_weaken l (σ σ' : State W) : same_store σ σ' -> same_store_but l σ σ'.
Proof. intros [Hh Hi]. split_and!; [done|by rewrite Hh|intros; by rewrite Hh]. Qed.

Lemma keeps_same_store_weaken l {A} (c : M (State W) A) :
  keeps same_store c -> keeps (same_store_but l) c.
Proof. intros Hc σ. apply same_store_weaken, Hc. Qed.

Lemma print_same_store o : keeps same_store (print o : M (State W) unit).
Proof. by intros σ. Qed.

Lemma print_same_client o : keeps same_client (print o : M (State W) unit).
Proof. by intros σ. Qed.

Lemma remote_same_store {A} call (f : W -> result A * W) : keeps same_store (remote call f).
Proof. intros σ. unfold remote. by destruct (f (world σ)). Qed.

Lemma remote_same_client {A} call (f : W -> result A * W) : keeps same_client (remote call f).
Proof. intros σ. unfold remote. by destruct (f (world σ)). Qed.

Lemma local_same_store {A} (f : W -> result A * W) : keeps same_store (local f).
Proof. intros σ. unfold local. by destruct (f (world σ)). Qed.

Lemma list_items_same_store l : keeps same_store (list_items l : M (State W) _).
Proof. by intros σ. Qed.

Lemma list_items_same_client l : keeps same_client (list_items l : M (State W) _).
Proof. by intros σ. Qed.

Lemma list_append_same_store_but l m :
  keeps (same_store_but l) (list_append l m : M (State W) unit).
Proof.
  intros σ. split_and!; simpl; [done|by rewrite length_insert|].
  intros l' Hl'. by rewrite list_lookup_insert_ne.
Qed.

Lemma list_append_same_client l m : keeps same_client (list_append l m : M (State W) unit).
Proof. by intros σ. Qed.

End Frames.

#[export] Hint Resolve print_same_store print_same_client remote_same_store
  remote_same_client local_same_store list_items_same_store list_items_same_client
  list_append_same_store_but list_append_same_client : keeps.

Section MethodFrames.
Context {W : Type} (R : Remote W).

Lemma session_same_store : keeps same_store (session : M (State W) _).
Proof. unfold session. keeps_auto. Qed.

Lemma session_same_client : keeps same_client (session : M (State W) _).
Proof. unfold session. keeps_auto. Qed.

Hint Resolve session_same_store session_same_client : keeps.

Lemma list_tools_same_store : keeps same_store (list_tools R).
Proof. unfold list_tools. keeps_auto. Qed.

Lemma list_tools_same_client : keeps same_client (list_tools R).
Proof. unfold list_tools. keeps_auto. Qed.

Lemma call_tool_same_store name input : keeps same_store (call_tool R name input).
Proof. unfold call_tool. keeps_auto. Qed.

Lemma call_tool_same_client name input : keeps same_client (call_tool R name input).
Proof. unfold call_tool. keeps_auto. Qed.

Lemma run_prompt_same_store name arguments : keeps same_store (run_prompt R name arguments).
Proof. unfold run_prompt. keeps_auto. Qed.

Lemma run_prompt_same_client name arguments : keeps same_client (run_prompt R name arguments).
Proof. unfold run_prompt. keeps_auto. Qed.

Lemma list_prompts_same_store : keeps same_store (list_prompts R).
Proof. unfold list_prompts. keeps_auto. Qed.

Lemma list_prompts_same_client : keeps same_client (list_prompts R).
Proof. unfold list_prompts. keeps_auto. Qed.

Hint Resolve list_tools_same_store list_tools_same_client call_tool_same_store
  call_tool_same_client run_prompt_same_store run_prompt_same_client
  list_prompts_same_store list_prompts_same_client : keeps.

Lemma chat_same_store messages tools : keeps same_store (chat R messages tools).
Proof. unfold chat. keeps_auto. Qed.

Lemma chat_same_client messages tools : keeps same_client (chat R messages tools).
Proof. unfold chat. keeps_auto. Qed.

Lemma text_from_message_state response σ : (text_from_message R response σ).2 = σ.
Proof.
  unfold text_from_message. destruct response as [r|]; [|done].
  destruct (response_text R r) as [t|[]]; done.
Qed.

Lemma text_from_message_same_store response : keeps same_store (text_from_message R response).
Proof. intros σ. by rewrite text_from_message_state. Qed.

Lemma text_from_message_same_client response :
  keeps same_client (text_from_message R response).
Proof. intros σ. by rewrite text_from_message_state. Qed.

Lemma get_tools_same_store : keeps same_store (get_tools R).
Proof. unfold get_tools. keeps_auto. Qed.

Lemma get_tools_same_client : keeps same_client (get_tools R).
Proof. unfold get_tools. keeps_auto. Qed.

Hint Resolve chat_same_store chat_same_client text_from_message_same_store
  text_from_message_same_client get_tools_same_store get_tools_same_client : keeps.

Lemma execute_call_same_store call : keeps same_store (execute_call R call).
Proof. unfold execute_call. keeps_auto. Qed.

Lemma execute_call_same_client call : keeps same_client (execute_call R call).
Proof. unfold execute_call. keeps_auto. Qed.

Hint Resolve execute_call_same_store execute_call_same_client : keeps.

Lemma execute_calls_same_store function_calls acc :
  keeps same_store (execute_calls R function_calls acc).
Proof.
  revert acc. induction function_calls as [|call rest IH]; intros acc; simpl; keeps_auto.
Qed.

Lemma execute_calls_same_client function_calls acc :
  keeps same_client (execute_calls R function_calls acc).
Proof.
  revert acc. induction function_calls as [|call rest IH]; intros acc; simpl; keeps_auto.
Qed.

Hint Resolve execute_calls_same_store execute_calls_same_client : keeps.

Lemma execute_tool_requests_same_store response :
  keeps same_store (execute_tool_requests R response).
Proof. unfold execute_tool_requests. keeps_auto. Qed.

Lemma execute_tool_requests_same_client response :
  keeps same_client (execute_tool_requests R response).
Proof. unfold execute_tool_requests. keeps_auto. Qed.

End MethodFrames.

#[export] Hint Resolve session_same_store session_same_client
  list_tools_same_store list_tools_same_client call_tool_same_store
  call_tool_same_client run_prompt_same_store run_prompt_same_client
  list_prompts_same_store list_prompts_same_client
  chat_same_store chat_same_client text_from_message_same_store
  text_from_message_same_client get_tools_same_store get_tools_same_client
  execute_call_same_store execute_call_same_client
  execute_calls_same_store execute_calls_same_client
  execute_tool_requests_same_store execute_tool_requests_same_client : keeps.

(** ** [_add_valid_model_response] *)

Lemma list_append_items {W} (l : loc) (m : Message) (σ : State W) :
  l < length (heap σ) ->
  heap (list_append l m σ).2 !!! l = heap σ !!! l ++ [m].
Proof.
  intros Hl. simpl. apply list_lookup_total_correct.
  by apply list_lookup_insert_eq.
Qed.

(** C6. When the response is absent, has no candidate, or its first
    candidate has no parts, [_add_valid_model_response] does nothing: the
    state, and with it the length and the items of every message list, is
    as before.  In every case, what the call adds to a list is at most one
    message, the content of the first candidate, and only when that content
    has at least one part. *)
Theorem add_valid_model_response_skips_empty {W : Type}
    (response : option Response) (messages : loc) (σ : State W) :
  (response = None
   ∨ (∃ r, response = Some r ∧ candidates r = [])
   ∨ (∃ r c cs, response = Some r ∧ candidates r = c :: cs ∧ parts (content c) = []) ->
   _add_valid_model_response response messages σ = (Return tt, σ))
  ∧ (messages < length (heap σ) ->
     let σ' := (_add_valid_model_response response messages σ).2 in
     heap σ' = heap σ
     ∨ ∃ c, heap σ' !!! messages = heap σ !!! messages ++ [ModelContent c]
            ∧ parts c ≠ []).
Proof.
  split.
  - intros [->|[(r & -> & Hr)|(r & c & cs & -> & Hr & Hc)]]; simpl; [done|..].
    + by rewrite Hr.
    + by rewrite Hr, Hc.
  - intros Hl. unfold _add_valid_model_response.
    destruct response as [r|]; [|by left].
    destruct (candidates r) as [|c cs]; [by left|].
    destruct (parts (content c)) as [|p ps] eqn:Hc; [by left|].
    right. exists (content c). split; [|by rewrite Hc].
    by apply list_append_items.
Qed.

Lemma add_valid_model_response_skips_empty_witness :
  _add_valid_model_response (Some (response_of [])) 0 (new_session silent new_client)
    = (Return tt, new_session silent new_client)
  ∧ ∃ c, heap (_add_valid_model_response (Some (response_of [Text "Done."])) 0
                 (new_session silent new_client)).2 !!! 0
         = [ModelContent c] ∧ parts c ≠ [].
Proof.
  split.
  - apply (add_valid_model_response_skips_empty (Some (response_of [])) 0
             (new_session silent new_client)).
    right; right. by exists (response_of []), {| content := {| parts := [] |} |}, [].
  - destruct (add_valid_model_response_skips_empty (Some (response_of [Text "Done."])) 0
                (new_session silent new_client)) as [_ H].
    destruct H as [H|H]; [simpl; lia|discriminate H|exact H].
Defined.

(** ** [chat] *)

Lemma chat_eq {W} (R : Remote W) messages tools (σ : State W) :
  let contents := heap σ !!! messages in
  let call := GenerateContent contents (request_tools tools) in
  chat R messages tools σ =
    match generate_content R contents (request_tools tools) (world σ) with
    | (Return response, w) => (Return (Some response), answered call w σ)
    | (Raise e, w) =>
        (Return None,
         set_stdout (stdout σ ++ [match e with
                                  | InternalServerError _ => ServerError500
                                  | _ => UnexpectedApiError e
                                  end]) (answered call w σ))
    end.
Proof.
  unfold chat. rewrite bind_eq. simpl.
  rewrite try_except_eq, bind_eq. unfold remote at 1.
  destruct (generate_content R _ _ (world σ)) as [[response|e] w]; [done|].
  by destruct e.
Qed.

(** C3, as the program has it.  [chat] returns the response when the
    backend call returns one, and returns the absent value on every failure
    of the backend call, an [InternalServerError] or any other exception
    alike; the two differ only in the notice printed.  [chat] never
    raises. *)
Theorem chat_returns_absent_on_every_failure {W : Type} (R : Remote W)
    (messages : loc) (tools : option (list GeminiTool)) (σ : State W) :
  let contents := heap σ !!! messages in
  let call := GenerateContent contents (request_tools tools) in
  match generate_content R contents (request_tools tools) (world σ) with
  | (Return response, w) =>
      chat R messages tools σ = (Return (Some response), answered call w σ)
  | (Raise (InternalServerError m), w) =>
      chat R messages tools σ =
        (Return None, set_stdout (stdout σ ++ [ServerError500]) (answered call w σ))
  | (Raise e, w) =>
      chat R messages tools σ =
        (Return None, set_stdout (stdout σ ++ [UnexpectedApiError e]) (answered call w σ))
  end.
Proof.
  intros contents call. rewrite chat_eq. fold contents. fold call.
  destruct (generate_content R contents _ (world σ)) as [[response|e] w]; [done|].
  by destruct e.
Qed.

(** C3, as stated, fails: the backend call raises an exception that is not
    an [InternalServerError], and [chat] returns the absent value instead
    of raising. *)
Lemma chat_swallows_other_failures :
  ∃ e σ',
    (generate_content scripted [] None (world (new_session refusing connected_client))).1
      = Raise e
    ∧ (∀ m, e ≠ InternalServerError m)
    ∧ chat scripted 0 None (new_session refusing connected_client) = (Return None, σ')
    ∧ ∀ e' σ'', chat scripted 0 None (new_session refusing connected_client)
                ≠ (Raise e', σ'').
Proof.
  eexists _, _. split_and!; [reflexivity|done|vm_compute; reflexivity|done].
Qed.

(** ** [MCPClient] *)

Section ClientFacts.
Context {W : Type} (R : Remote W).

Lemma refused_without_session (σ : State W) : _session (client σ) = None -> refused R σ.
Proof.
  intros Hs. unfold refused, list_tools, call_tool, run_prompt, list_prompts.
  split_and!; [|intros name input|intros name arguments|];
    eexists; rewrite bind_eq; simpl; unfold session;
    rewrite ?bind_eq; simpl; rewrite Hs; reflexivity.
Qed.

(** What [run_exits] raises is the pending exception or one raised by the
    exit of a context of the stack. *)
Lemma run_exits_raise ctxs pending (σ : State W) e σ' :
  run_exits R ctxs pending σ = (Raise e, σ') ->
  pending = Some e ∨ ∃ c w, c ∈ ctxs ∧ (context_exit R c w).1 = Raise e.
Proof.
  revert pending σ. induction ctxs as [|c rest IH]; intros pending σ Hrun; simpl in Hrun.
  - destruct pending; inversion Hrun; auto.
  - rewrite bind_eq, try_except_eq, bind_eq in Hrun. unfold local in Hrun.
    destruct (context_exit R c (world σ)) as [[[]|e0] w] eqn:Hexit; simpl in Hrun.
    + apply IH in Hrun as [->|(c' & w' & Hc' & He)]; [by left|].
      right. exists c', w'. split; [by apply elem_of_cons; right|done].
    + apply IH in Hrun as [[= ->]|(c' & w' & Hc' & He)].
      * right. exists c, (world σ). split; [by apply elem_of_cons; left|by rewrite Hexit].
      * right. exists c', w'. split; [by apply elem_of_cons; right|done].
Qed.

Lemma run_exits_client ctxs pending : keeps same_client (run_exits R ctxs pending).
Proof.
  revert pending. induction ctxs as [|c rest IH]; intros pending; simpl.
  - keeps_auto.
  - apply keeps_bind; [typeclasses eauto| |intros raised; apply IH].
    apply keeps_try_except; [typeclasses eauto| |intros; apply keeps_ret; typeclasses eauto].
    apply keeps_bind; [typeclasses eauto| |intros; apply keeps_ret; typeclasses eauto].
    intros σ. unfold local. by destruct (context_exit R c (world σ)).
Qed.

Lemma cleanup_eq (σ : State W) :
  cleanup R σ =
    match run_exits R (_exit_stack (client σ)) None
            (set_client {| _session := _session (client σ); _exit_stack := [] |} σ) with
    | (Return _, σ1) => assign_session None σ1
    | (Raise e, σ1) => (Raise e, σ1)
    end.
Proof. reflexivity. Qed.

Lemma cleanup_return (σ σ' : State W) :
  cleanup R σ = (Return tt, σ') -> client σ' = new_client.
Proof.
  rewrite cleanup_eq.
  destruct (run_exits R _ None _) as [[[]|e] σ1] eqn:Hrun; [|done].
  intros [= <-]. simpl.
  apply (keeps_run same_client) in Hrun; [|apply run_exits_client].
  unfold same_client in Hrun. simpl in Hrun. by rewrite Hrun.
Qed.

Lemma cleanup_raise (σ σ' : State W) e :
  cleanup R σ = (Raise e, σ') ->
  ∃ c w, c ∈ _exit_stack (client σ) ∧ (context_exit R c w).1 = Raise e.
Proof.
  rewrite cleanup_eq.
  destruct (run_exits R _ None _) as [[[]|e0] σ1] eqn:Hrun; [done|].
  intros [= -> ->]. by apply run_exits_raise in Hrun as [|].
Qed.

Lemma cleanup_empty_stack (σ : State W) :
  _exit_stack (client σ) = [] ->
  cleanup R σ = (Return tt, set_client new_client σ).
Proof. intros Hs. rewrite cleanup_eq, Hs. reflexivity. Qed.

(** After [connect] has returned the client holds a session. *)
Lemma connect_return (σ σ' : State W) :
  connect R σ = (Return tt, σ') -> is_Some (_session (client σ')).
Proof.
  unfold connect. rewrite bind_eq. unfold local at 1.
  destruct (stdio_client_enter R (world σ)) as [[[]|e] w1]; [|done].
  rewrite bind_eq. simpl. rewrite bind_eq. unfold local at 1. simpl.
  destruct (client_session_enter R w1) as [[s|e] w2]; [|done].
  rewrite bind_eq. simpl. rewrite bind_eq. simpl. unfold remote. simpl.
  destruct (session_initialize R w2) as [[[]|e] w3]; [|done].
  intros [= <-]. simpl. eauto.
Qed.

(** With a session, [list_tools] is passed on to it: the request is
    recorded, so the state is not the one before. *)
Lemma refused_needs_no_session (σ : State W) : refused R σ -> _session (client σ) = None.
Proof.
  intros ((m & Hl) & _). destruct (_session (client σ)) as [s|] eqn:Hs; [|done].
  unfold list_tools in Hl. rewrite bind_eq in Hl. unfold session in Hl.
  rewrite bind_eq in Hl. simpl in Hl. rewrite Hs in Hl. simpl in Hl. unfold remote in Hl.
  destruct (session_list_tools R (world σ)) as [r w]. injection Hl as _ Hσ.
  apply (f_equal calls) in Hσ. simpl in Hσ. apply (f_equal length) in Hσ.
  rewrite length_app in Hσ. simpl in Hσ. lia.
Qed.

(** On a new client, however [connect] ends, a session is assigned exactly
    when the session context has been entered. *)
Lemma connect_session (σ σ' : State W) r :
  client σ = new_client ->
  connect R σ = (r, σ') ->
  _session (client σ') = None <-> SessionContext ∉ _exit_stack (client σ').
Proof.
  intros Hc. unfold connect. rewrite bind_eq. unfold local at 1.
  destruct (stdio_client_enter R (world σ)) as [[[]|e] w1].
  2:{ intros [= <- <-]. simpl. rewrite Hc. simpl. split; [intros _|done].
      apply not_elem_of_nil. }
  rewrite bind_eq. simpl. rewrite bind_eq. unfold local at 1. simpl.
  destruct (client_session_enter R w1) as [[s|e] w2].
  2:{ intros [= <- <-]. simpl. rewrite Hc. simpl. split; [intros _|done].
      intros [H|H]%elem_of_cons; [discriminate H|by apply elem_of_nil in H]. }
  rewrite bind_eq. simpl. rewrite bind_eq. simpl. unfold remote. simpl.
  destruct (session_initialize R w2) as [r0 w3]. intros [= <- <-]. simpl.
  split; [done|]. intros Hnot. destruct Hnot. apply elem_of_cons. by left.
Qed.

(** A [cleanup] that raises has not reached the assignment of line 129:
    the session is the one the client had. *)
Lemma cleanup_raise_session (σ σ' : State W) e :
  cleanup R σ = (Raise e, σ') -> _session (client σ') = _session (client σ).
Proof.
  rewrite cleanup_eq.
  destruct (run_exits R _ None _) as [[[]|e0] σ1] eqn:Hrun; [done|].
  intros [= -> ->].
  apply (keeps_run same_client) in Hrun; [|apply run_exits_client].
  unfold same_client in Hrun. simpl in Hrun. by rewrite Hrun.
Qed.

End ClientFacts.




(** ** [ask] *)

Arguments text_from_message : simpl never.
Arguments chat : simpl never.
Arguments list_pop : simpl never.
Arguments execute_tool_requests : simpl never.
Arguments get_tools : simpl never.
Arguments run_prompt : simpl never.

Lemma list_pop_append {W} (l : loc) (m : Message) (σ : State W) :
  l < length (heap σ) ->
  ∀ σ1, same_store (list_append l m σ).2 σ1 ->
  ∃ σ2, list_pop l σ1 = (Return m, σ2) ∧ heap σ2 = heap σ ∧ history σ2 = history σ.
Proof.
  intros Hl σ1 [Hh Hi]. simpl in Hh, Hi. unfold list_pop. rewrite Hh.
  assert (<[l:=heap σ !!! l ++ [m]]> (heap σ) !!! l = heap σ !!! l ++ [m]) as ->.
  { apply list_lookup_total_correct. by apply list_lookup_insert_eq. }
  rewrite last_snoc, removelast_last. eexists. split; [reflexivity|]. simpl. split; [|done].
  rewrite list_insert_insert_eq. apply list_insert_id.
  by apply list_lookup_lookup_total_lt.
Qed.

(** C10. For every list of messages and every question: when the [chat]
    call made by [ask] returns the absent value, or the text extracted from
    its response is empty, [ask] returns the empty string and the list has
    the items it had before the call (the question appended is removed
    again); no other list changes. *)
Theorem ask_failure_removes_question {W : Type} (R : Remote W)
    (question : string) (messages_history : loc) (σ σ1 : State W)
    (response : option Response) :
  messages_history < length (heap σ) ->
  chat R messages_history None
    (add_message_to_history messages_history (Msg "user" [Text question]) σ).2
    = (Return response, σ1) ->
  (response = None
   ∨ ∃ r, response = Some r ∧ (text_from_message R (Some r) σ1).1 = Return EmptyString) ->
  ∃ σ', ask R question messages_history σ = (Return EmptyString, σ')
        ∧ heap σ' !!! messages_history = heap σ !!! messages_history
        ∧ heap σ' = heap σ.
Proof.
  intros Hl Hchat Hfail.
  pose proof (keeps_run same_store _ _ _ _ (chat_same_store R _ _) Hchat) as Hstore.
  destruct (list_pop_append messages_history (Msg "user" [Text question]) σ Hl σ1 Hstore)
    as (σ2 & Hpop & Hheap & _).
  exists σ2. unfold ask. rewrite bind_eq. simpl.
  unfold add_message_to_history in Hchat. simpl in Hchat.
  rewrite bind_eq, Hchat.
  destruct Hfail as [->|(r & -> & Htext)].
  - rewrite bind_eq, Hpop. by rewrite Hheap.
  - rewrite bind_eq.
    pose proof (text_from_message_state R (Some r) σ1) as Hst.
    destruct (text_from_message R (Some r) σ1) as [res σt]. simpl in Htext, Hst.
    subst res σt. simpl. rewrite bind_eq, Hpop. by rewrite Hheap.
Qed.

Lemma ask_failure_removes_question_witness :
  ∃ σ', ask scripted "Any meetings today?" 0 (new_session silent connected_client)
          = (Return EmptyString, σ')
        ∧ heap σ' !!! 0 = []
        ∧ heap σ' = [[]].
Proof.
  eapply (ask_failure_removes_question scripted "Any meetings today?" 0
            (new_session silent connected_client)).
  - simpl. lia.
  - vm_compute. reflexivity.
  - left. reflexivity.
Defined.

Example ask_with_empty_text :
  ∃ σ', ask scripted "Any meetings today?" 0 (new_session speechless connected_client)
          = (Return EmptyString, σ')
        ∧ heap σ' = [[]].
Proof. eexists. vm_compute. split; reflexivity. Qed.

(** ** [execute_tool_requests] *)

Lemma append_assoc (a b c : string) : (a +:+ b) +:+ c = a +:+ b +:+ c.
Proof.
  induction a as [|x a IH]; [done|].
  change (String x ((a +:+ b) +:+ c) = String x (a +:+ b +:+ c)). by rewrite IH.
Qed.

Lemma escape_append (a b : string) : escape (a +:+ b) = escape a +:+ escape b.
Proof.
  induction a as [|x a IH]; [done|].
  change (escape (String x a +:+ b)) with (escape_char x +:+ escape (a +:+ b)).
  change (escape (String x a)) with (escape_char x +:+ escape a).
  by rewrite IH, append_assoc.
Qed.

(** The error payload spelled out: a JSON object whose ["error"] text names
    the tool. *)
Lemma error_payload_names_tool tool_name e :
  error_payload tool_name e =
    "{" +:+ dquote +:+ "error" +:+ dquote +:+ ": " +:+ dquote
        +:+ "Error executing tool '" +:+ escape tool_name +:+ "': " +:+ escape (exn_str e)
        +:+ dquote +:+ "}".
Proof.
  unfold error_payload, error_message. simpl. unfold quoted.
  rewrite !escape_append. simpl. by rewrite !append_assoc.
Qed.

Section ToolBatch.
Context {W : Type} (R : Remote W).

Lemma execute_call_eq call (σ : State W) :
  execute_call R call σ =
    let (outcome, σ1) :=
      call_tool R (fc_name call) (fc_args call)
        (print (CallingTool (fc_name call) (fc_args call)) σ).2 in
    (Return (outcome_part call outcome), σ1).
Proof.
  unfold execute_call. rewrite bind_eq. simpl.
  rewrite bind_eq, try_except_eq, bind_eq.
  by destruct (call_tool R _ _ _) as [[o|e] σ1].
Qed.

Lemma execute_calls_eq function_calls acc (σ : State W) :
  execute_calls R function_calls acc σ =
    (Return (acc ++ zip_with outcome_part function_calls (tool_outcomes R function_calls σ).1),
     (tool_outcomes R function_calls σ).2).
Proof.
  revert acc σ. induction function_calls as [|call rest IH]; intros acc σ; simpl.
  - by rewrite app_nil_r.
  - rewrite bind_eq, execute_call_eq.
    destruct (call_tool R _ _ _) as [outcome σ1]. rewrite IH.
    destruct (tool_outcomes R rest σ1) as [outcomes σ2]. simpl.
    by rewrite <- app_assoc.
Qed.

Lemma tool_outcomes_length function_calls (σ : State W) :
  length (tool_outcomes R function_calls σ).1 = length function_calls.
Proof.
  revert σ. induction function_calls as [|call rest IH]; intros σ; simpl; [done|].
  destruct (call_tool R _ _ _) as [outcome σ1]. specialize (IH σ1).
  destruct (tool_outcomes R rest σ1) as [outcomes σ2]. simpl in *. by rewrite IH.
Qed.

Lemma execute_tool_requests_eq response (σ : State W) :
  execute_tool_requests R response σ =
    (Return (zip_with outcome_part (requested response)
               (tool_outcomes R (requested response) σ).1),
     (tool_outcomes R (requested response) σ).2).
Proof.
  unfold execute_tool_requests, requested.
  destruct response as [r|]; [|done].
  destruct (candidates r) as [|c cs]; [done|].
  destruct (parts (content c)) as [|p ps]; [done|].
  by rewrite execute_calls_eq.
Qed.

End ToolBatch.

(** C2. For the [N] tool calls requested by the parts of a response,
    [execute_tool_requests] returns, without raising, exactly [N] result
    parts: the part at position [i] is the result of the call at position
    [i] of the requests, in the order of the content parts; a call that
    raised contributes the error payload, which names the tool, and the
    batch goes on; a response that requests no call gives the empty
    list. *)
Theorem execute_tool_requests_one_part_per_call {W : Type} (R : Remote W)
    (response : option Response) (σ : State W) :
  let function_calls := requested response in
  let outcomes := (tool_outcomes R function_calls σ).1 in
  ∃ results σ',
    execute_tool_requests R response σ = (Return results, σ')
    ∧ length results = length function_calls
    ∧ results = zip_with outcome_part function_calls outcomes
    ∧ response_name <$> results = Some ∘ fc_name <$> function_calls
    ∧ (∀ i call e,
         function_calls !! i = Some call ->
         outcomes !! i = Some (Raise e) ->
         results !! i = Some (FunctionResponse (fc_name call)
           ("{" +:+ dquote +:+ "error" +:+ dquote +:+ ": " +:+ dquote
                +:+ "Error executing tool '" +:+ escape (fc_name call) +:+ "': "
                +:+ escape (exn_str e) +:+ dquote +:+ "}")))
    ∧ (function_calls = [] -> results = []).
Proof.
  intros function_calls outcomes. eexists _, _.
  split; [apply execute_tool_requests_eq|].
  fold function_calls. fold outcomes.
  assert (length outcomes = length function_calls) as Hlen
    by apply tool_outcomes_length.
  split_and!.
  - rewrite length_zip_with. lia.
  - done.
  - clearbody outcomes. clearbody function_calls. clear -Hlen. revert outcomes Hlen.
    induction function_calls as [|call rest IH]; intros [|o os] Hlen; simpl in *; try done.
    f_equal. apply IH. lia.
  - intros i call e Hcall Hout. rewrite lookup_zip_with, Hcall. simpl. rewrite Hout.
    unfold outcome_part. cbn [mbind option_bind].
    by rewrite error_payload_names_tool.
  - by intros ->.
Qed.

Lemma execute_tool_requests_one_part_per_call_witness :
  ∃ σ',
    execute_tool_requests scripted (Some (response_of [Text "Scheduling."; Call schedule_q3]))
      (new_session broken_tool connected_client)
    = (Return [FunctionResponse "schedule_meeting"
                 ("{" +:+ dquote +:+ "error" +:+ dquote +:+ ": " +:+ dquote
                      +:+ "Error executing tool 'schedule_meeting': Connection closed"
                      +:+ dquote +:+ "}")], σ').
Proof.
  destruct (execute_tool_requests_one_part_per_call scripted
              (Some (response_of [Text "Scheduling."; Call schedule_q3]))
              (new_session broken_tool connected_client))
    as (results & σ' & Hrun & Hlen & _ & _ & Herr & _).
  exists σ'. rewrite Hrun. f_equal. f_equal.
  specialize (Herr 0 schedule_q3 (OtherException "McpError" "Connection closed")
                eq_refl eq_refl).
  destruct results as [|p [|q rest]]; [discriminate Hlen| |discriminate Hlen].
  simpl in Herr. inversion Herr. reflexivity.
Defined.

(** ** The tool round of a turn *)

Section ToolRound.
Context {W : Type} (R : Remote W).

Lemma add_valid_model_response_items response messages (σ : State W) :
  messages < length (heap σ) ->
  let σ' := (_add_valid_model_response response messages σ).2 in
  calls σ' = calls σ
  ∧ ∃ rest, heap σ' !!! messages = heap σ !!! messages ++ rest
            ∧ (rest = [] ∨ ∃ c, rest = [ModelContent c]).
Proof.
  intros Hl. unfold _add_valid_model_response.
  destruct response as [r|]; [|split; [done|exists []; rewrite app_nil_r; auto]].
  destruct (candidates r) as [|c cs]; [split; [done|exists []; rewrite app_nil_r; auto]|].
  destruct (parts (content c)) as [|p ps];
    [split; [done|exists []; rewrite app_nil_r; auto]|].
  split; [done|]. exists [ModelContent (content c)]. split; [|eauto].
  by apply list_append_items.
Qed.

Lemma add_valid_model_response_same_store_but response messages :
  keeps (same_store_but messages)
    (_add_valid_model_response response messages : M (State W) unit).
Proof.
  unfold _add_valid_model_response, add_message_to_history.
  keeps_auto.
Qed.

End ToolRound.

#[export] Hint Resolve add_valid_model_response_same_store_but : keeps.

(** Lines 89-105 on a batch of results that is not empty: the working
    list receives one message with role ["tool"], holding all the result
    parts, and then at most the content of the second response; the model
    is called a second time, with the working list that ends in the tool
    message and with no tool catalog. *)
Lemma tool_round_one_message {W : Type} (R : Remote W)
    (response : Response) (messages_for_this_turn : loc)
    (σ σ1 : State W) (tool_results : list Part) :
  messages_for_this_turn < length (heap σ) ->
  execute_tool_requests R (Some response) σ = (Return tool_results, σ1) ->
  tool_results ≠ [] ->
  let σ' := (tool_round R response messages_for_this_turn σ).2 in
  let before := heap σ !!! messages_for_this_turn in
  ∃ added,
    heap σ' !!! messages_for_this_turn = before ++ added
    ∧ (added = [Msg "tool" tool_results]
       ∨ ∃ c, added = [Msg "tool" tool_results; ModelContent c])
    ∧ length (List.filter is_tool_message added) = 1
    ∧ calls σ' = calls σ1 ++ [GenerateContent (before ++ [Msg "tool" tool_results]) None].
Proof.
  intros Hl Hexec Hne σ' before.
  pose proof (keeps_run same_store _ _ _ _ (execute_tool_requests_same_store R _) Hexec)
    as [Hheap _].
  assert (heap (list_append messages_for_this_turn (Msg "tool" tool_results) σ1).2
            !!! messages_for_this_turn = before ++ [Msg "tool" tool_results]) as Happ.
  { rewrite list_append_items by (by rewrite Hheap). by rewrite Hheap. }
  set (σ2 := (list_append messages_for_this_turn (Msg "tool" tool_results) σ1).2) in *.
  assert (messages_for_this_turn < length (heap σ2)) as Hl2.
  { subst σ2. simpl. by rewrite length_insert, Hheap. }
  assert (calls σ2 = calls σ1) as Hcalls2 by done.
  subst σ'. unfold tool_round. rewrite bind_eq, Hexec.
  destruct tool_results as [|p ps]; [done|].
  rewrite bind_eq. unfold add_message_to_history.
  change (list_append messages_for_this_turn (Msg "tool" (p :: ps)) σ1)
    with (Return tt, σ2).
  clearbody σ2.
  cbv beta iota. rewrite bind_eq, chat_eq. rewrite Happ. simpl request_tools.
  destruct (generate_content R _ None (world σ2)) as [[final|e] w].
  - rewrite bind_eq.
    set (σ3 := answered _ w σ2).
    assert (heap σ3 = heap σ2) as Hheap3 by done.
    assert (calls σ3 = calls σ2 ++ [GenerateContent (before ++ [Msg "tool" (p :: ps)]) None])
      as Hcalls3 by done.
    assert (messages_for_this_turn < length (heap σ3)) as Hl3 by (by rewrite Hheap3).
    clearbody σ3.
    destruct (add_valid_model_response_items (Some final) messages_for_this_turn σ3 Hl3)
      as (Hc & rest & Hitems & Hrest).
    assert (∃ added,
      heap (_add_valid_model_response (Some final) messages_for_this_turn σ3).2
        !!! messages_for_this_turn = before ++ added
      ∧ (added = [Msg "tool" (p :: ps)]
         ∨ ∃ c, added = [Msg "tool" (p :: ps); ModelContent c])
      ∧ length (List.filter is_tool_message added) = 1
      ∧ calls (_add_valid_model_response (Some final) messages_for_this_turn σ3).2
        = calls σ1 ++ [GenerateContent (before ++ [Msg "tool" (p :: ps)]) None])
      as Hgoal.
    { exists (Msg "tool" (p :: ps) :: rest).
      rewrite Hitems, Hc, Hheap3, Happ, Hcalls3, Hcalls2, <- app_assoc.
      destruct Hrest as [->|[c ->]]; split_and!; eauto. }
    destruct (_add_valid_model_response (Some final) messages_for_this_turn σ3)
      as [[[]|e] σ4]; [|exact Hgoal].
    rewrite bind_eq.
    pose proof (text_from_message_state R (Some final) σ4) as Hst.
    destruct (text_from_message R (Some final) σ4) as [[t|e] σ5];
      simpl in Hst; subst σ5; exact Hgoal.
  - simpl. exists [Msg "tool" (p :: ps)]. rewrite Happ, Hcalls2. auto.
Qed.

(** ** One turn of the loop *)

Section Turn.
Context {W : Type} (R : Remote W).

Lemma handle_user_input_same_store_but user_input work :
  keeps (same_store_but work) (handle_user_input R user_input work).
Proof.
  unfold handle_user_input, add_message_to_history.
  repeat keeps_step;
    first [solve [eauto with keeps]
          |solve [apply keeps_same_store_weaken; eauto with keeps]].
Qed.

Lemma tool_round_same_store_but response work :
  keeps (same_store_but work) (tool_round R response work).
Proof.
  unfold tool_round, add_message_to_history.
  repeat keeps_step;
    first [solve [eauto with keeps]
          |solve [apply keeps_same_store_weaken; eauto with keeps]].
Qed.

(** Where the main flow ends: at the end of the body, having made the
    working list the history, or elsewhere, with the history it had. *)
Lemma conversational_flow_outcome work (σ σ' : State W) flow :
  conversational_flow R work σ = (flow, σ') ->
  (flow = Return Completed
   ∧ history σ' = work
   ∧ same_store_but work σ (set_history (history σ) σ'))
  ∨ (flow ≠ Return Completed ∧ same_store_but work σ σ').
Proof.
  unfold conversational_flow. rewrite bind_eq.
  destruct (get_tools R σ) as [[available_tools|e] σ1] eqn:H1;
    apply (keeps_run (same_store_but work)) in H1 as F1;
    try solve [apply keeps_same_store_weaken; eauto with keeps];
    [|intros [= <- <-]; by right].
  rewrite bind_eq.
  destruct (chat R work (Some available_tools) σ1) as [[response|e] σ2] eqn:H2;
    apply (keeps_run (same_store_but work)) in H2 as F2;
    try solve [apply keeps_same_store_weaken; eauto with keeps];
    [|intros [= <- <-]; right; split; [done|by etransitivity]].
  destruct response as [r|];
    [|intros [= <- <-]; right; split; [done|by etransitivity]].
  rewrite bind_eq.
  destruct (_add_valid_model_response (Some r) work σ2) as [[[]|e] σ3] eqn:H3;
    apply (keeps_run (same_store_but work)) in H3 as F3; eauto with keeps;
    [|intros [= <- <-]; right; split; [done|by repeat (etransitivity; [eassumption|])]].
  rewrite bind_eq.
  destruct (tool_round R r work σ3) as [[final|e] σ4] eqn:H4;
    apply (keeps_run (same_store_but work)) in H4 as F4;
    try apply tool_round_same_store_but;
    [|intros [= <- <-]; right; split; [done|by repeat (etransitivity; [eassumption|])]].
  assert (same_store_but work σ σ4) as F
    by (by repeat (etransitivity; [eassumption|])).
  destruct final as [final_text|]; [|intros [= <- <-]; by right].
  rewrite bind_eq. simpl. rewrite bind_eq.
  destruct (PyStr.nonempty (PyStr.strip final_text)); simpl;
    intros [= <- <-]; left; (split; [done|]); (split; [done|]);
    destruct F as (Fh & Fl & Fo); split_and!; done.
Qed.

Lemma turn_exit user_input (σ : State W) :
  PyStr.lower user_input = "exit" -> turn R user_input σ = (Return Break, σ).
Proof. intros Hexit. unfold turn. by rewrite Hexit. Qed.

(** A turn, from the state before to the state after: when it ends at the
    end of the body, the history is the working list of the turn; in every
    other case the history is the same list with the same items.  Lists
    allocated before the turn are left as they were. *)
Lemma turn_outcome user_input (σ σ' : State W) flow :
  well_formed σ ->
  turn R user_input σ = (flow, σ') ->
  well_formed σ'
  ∧ (∀ l, l < length (heap σ) -> heap σ' !! l = heap σ !! l)
  ∧ ((flow = Return Completed ∧ history σ' = length (heap σ))
     ∨ (flow ≠ Return Completed
        ∧ history σ' = history σ
        ∧ committed σ' = committed σ)).
Proof.
  unfold well_formed, committed. intros Hwf. unfold turn.
  destruct (String.eqb (PyStr.lower user_input) "exit").
  { intros [= <- <-]. split_and!; [done|done|]. by right. }
  rewrite bind_eq. simpl. rewrite bind_eq. simpl. rewrite bind_eq.
  set (work := length (heap σ)).
  set (σ0 := set_heap (heap σ ++ [heap σ !!! history σ]) σ).
  change (list_new (heap σ !!! history σ) σ) with (Return work, σ0).
  cbv beta iota.
  assert (∀ σ2, same_store_but work σ0 σ2 ->
            length (heap σ2) = S work
            ∧ (∀ l, l < work -> heap σ2 !! l = heap σ !! l)
            ∧ heap σ2 !!! history σ = heap σ !!! history σ) as Hframe.
  { intros σ2 (Fh & Fl & Fo).
    assert (length (heap σ2) = S work) as Hlen.
    { rewrite Fl. subst σ0 work. simpl. rewrite length_app. simpl. lia. }
    assert (∀ l, l < work -> heap σ2 !! l = heap σ !! l) as Hold.
    { intros l Hl. rewrite Fo by lia. subst σ0. simpl. by rewrite lookup_app_l. }
    split_and!; [done|done|].
    rewrite !list_lookup_total_alt. by rewrite Hold. }
  rewrite bind_eq.
  destruct (handle_user_input R user_input work σ0) as [[flow1|e] σ1] eqn:H1;
    apply (keeps_run (same_store_but work)) in H1 as F1;
    try apply handle_user_input_same_store_but.
  2:{ intros [= <- <-]. destruct (Hframe _ F1) as (Hlen & Hold & Hsame).
      destruct F1 as (Fh & _). split_and!; [rewrite Fh; simpl; lia|done|].
      right. rewrite Fh. by split_and!. }
  destruct flow1.
  1,2: intros [= <- <-]; destruct (Hframe _ F1) as (Hlen & Hold & Hsame);
       destruct F1 as (Fh & _); (split_and!; [rewrite Fh; simpl; lia|done|]);
       right; rewrite Fh; by split_and!.
  intros Hflow. apply conversational_flow_outcome in Hflow
    as [(-> & Hhist & F2)|(Hne & F2)].
  - assert (same_store_but work σ0 (set_history (history σ1) σ')) as F
      by (by etransitivity).
    destruct (Hframe _ F) as (Hlen & Hold & _). simpl in *.
    split_and!; [lia|done|]. left. by rewrite Hhist.
  - assert (same_store_but work σ0 σ') as F by (by etransitivity).
    destruct (Hframe _ F) as (Hlen & Hold & Hsame).
    destruct F as (Fh & _). split_and!; [rewrite Fh; simpl; lia|done|].
    right. rewrite Fh. by split_and!.
Qed.

End Turn.

(** ** The session loop *)

Section Session.
Context {W : Type} (R : Remote W).

(** The three ways a turn is abandoned end at a [continue]. *)

Lemma prompt_failure_continues prompt_name rest work (σ σ1 : State W) e :
  run_prompt R prompt_name (Some (JDict [])) (print (RunningPrompt prompt_name) σ).2
    = (Raise e, σ1) ->
  PyStr.split (PyStr.strip (PyStr.tail ("/" +:+ prompt_name))) = prompt_name :: rest ->
  handle_user_input R ("/" +:+ prompt_name) work σ
    = (Return Continue, (print (ErrorRunningPrompt e) σ1).2).
Proof.
  intros Hrun Hsplit. unfold handle_user_input.
  change (PyStr.startswith_slash ("/" +:+ prompt_name)) with true. cbv iota zeta.
  rewrite Hsplit. rewrite bind_eq. simpl. rewrite try_except_eq, bind_eq.
  simpl in Hrun. by rewrite Hrun.
Qed.

Lemma first_chat_absent_continues work (σ σ1 σ2 : State W) available_tools :
  get_tools R σ = (Return available_tools, σ1) ->
  chat R work (Some available_tools) σ1 = (Return None, σ2) ->
  conversational_flow R work σ = (Return Continue, σ2).
Proof.
  intros Htools Hchat. unfold conversational_flow.
  by rewrite bind_eq, Htools, bind_eq, Hchat.
Qed.

Lemma second_chat_absent_continues work (σ σ1 σ2 σ3 σ4 σ5 : State W)
    available_tools r p ps :
  get_tools R σ = (Return available_tools, σ1) ->
  chat R work (Some available_tools) σ1 = (Return (Some r), σ2) ->
  _add_valid_model_response (Some r) work σ2 = (Return tt, σ3) ->
  execute_tool_requests R (Some r) σ3 = (Return (p :: ps), σ4) ->
  chat R work None (add_message_to_history work (Msg "tool" (p :: ps)) σ4).2
    = (Return None, σ5) ->
  conversational_flow R work σ = (Return Continue, σ5).
Proof.
  intros Htools Hchat Hadd Hexec Hchat2. unfold conversational_flow.
  rewrite bind_eq, Htools, bind_eq, Hchat, bind_eq, Hadd, bind_eq.
  unfold tool_round. rewrite bind_eq, Hexec, bind_eq.
  unfold add_message_to_history in *. simpl in Hchat2. simpl.
  by rewrite bind_eq, Hchat2.
Qed.

Lemma list_prompts_calls (σ : State W) :
  let σ' := (list_prompts R σ).2 in
  same_store σ σ' ∧ stdout σ' = stdout σ
  ∧ (calls σ' = calls σ ∨ calls σ' = calls σ ++ [ListPrompts]).
Proof.
  unfold list_prompts. rewrite bind_eq. simpl.
  destruct (_session (client σ)) as [s|] eqn:Hs;
    [|simpl; split_and!; [done|done|by left]].
  rewrite bind_eq. unfold session. rewrite bind_eq. simpl. rewrite Hs. simpl.
  unfold remote. destruct (session_list_prompts R (world σ)); simpl.
  split_and!; [done|done|by right].
Qed.

Lemma loop_exit user_input rest (σ : State W) :
  PyStr.lower user_input = "exit" -> loop R (user_input :: rest) σ = (Return tt, σ).
Proof. intros Hexit. simpl. by rewrite bind_eq, turn_exit. Qed.

Lemma loop_raise user_input rest (σ σ' : State W) e :
  turn R user_input σ = (Raise e, σ') -> loop R (user_input :: rest) σ = (Raise e, σ').
Proof. intros Hturn. simpl. by rewrite bind_eq, Hturn. Qed.

Lemma run_eq lines (σ : State W) :
  ∃ σ0, run R lines σ = loop R lines σ0
        ∧ same_store σ σ0
        ∧ client σ0 = client σ
        ∧ (calls σ0 = calls σ ∨ calls σ0 = calls σ ++ [ListPrompts]).
Proof.
  unfold run. rewrite bind_eq, try_except_eq, bind_eq.
  destruct (list_prompts_calls σ) as (Hstore & _ & Hcalls).
  pose proof (list_prompts_same_client R σ) as Hclient.
  destruct (list_prompts R σ) as [[prompts|e] σ1]; simpl in *;
    eexists; (split; [reflexivity|]); simpl; auto.
Qed.

Lemma turn_slash (σ : State W) :
  turn R "/" σ =
    (Raise (IndexError "list index out of range"),
     set_heap (heap σ ++ [heap σ !!! history σ]) σ).
Proof. reflexivity. Qed.

End Session.

(** C1. A turn that does not reach the end of the loop body - one that
    ends at a [continue] (after a failed prompt resolution, after an absent
    first response, after an absent second response), at [break], or by
    raising - leaves [self.history] referring to the same list, with the
    same items as before the turn.  The history changes only in a turn
    that reaches the end of the body, where it becomes the working list of
    that turn. *)
Theorem abandoned_turn_keeps_history {W : Type} (R : Remote W)
    (user_input : string) (σ σ' : State W) (flow : result Flow) :
  well_formed σ ->
  turn R user_input σ = (flow, σ') ->
  (flow ≠ Return Completed -> history σ' = history σ ∧ committed σ' = committed σ)
  ∧ (history σ' ≠ history σ -> flow = Return Completed ∧ history σ' = length (heap σ))
  ∧ (∀ l, l < length (heap σ) -> heap σ' !! l = heap σ !! l)
  ∧ well_formed σ'.
Proof.
  intros Hwf Hturn.
  destruct (turn_outcome R user_input σ σ' flow Hwf Hturn)
    as (Hwf' & Hold & [(-> & Hhist)|(Hne & Hhist & Hsame)]);
    split_and!; try done.
Qed.

Lemma abandoned_turn_keeps_history_witness :
  ∃ σ',
    turn scripted "When is the Q3 review?" (new_session overloaded connected_client)
      = (Return Continue, σ')
    ∧ history σ' = 0 ∧ committed σ' = [].
Proof.
  destruct (abandoned_turn_keeps_history scripted "When is the Q3 review?"
              (new_session overloaded connected_client)
              (turn scripted "When is the Q3 review?"
                 (new_session overloaded connected_client)).2
              (Return Continue)) as (Hkeep & _).
  - unfold well_formed. simpl. lia.
  - vm_compute. reflexivity.
  - eexists. split; [vm_compute; reflexivity|].
    apply Hkeep. discriminate.
Defined.

(** C8. When the line read is ["exit"], in any mix of upper and lower
    case, the loop ends by returning, not by raising, and the state is the
    one before the line was read: no remote call is made.  For [run] as a
    whole, started on such a line, the only remote call is the listing of
    the prompts made before the line is read. *)
Theorem exit_ends_session_without_remote_call {W : Type} (R : Remote W)
    (user_input : string) (rest : list string) (σ : State W) :
  PyStr.lower user_input = "exit" ->
  turn R user_input σ = (Return Break, σ)
  ∧ loop R (user_input :: rest) σ = (Return tt, σ)
  ∧ ∃ σ', run R (user_input :: rest) σ = (Return tt, σ')
          ∧ (calls σ' = calls σ ∨ calls σ' = calls σ ++ [ListPrompts]).
Proof.
  intros Hexit. split_and!.
  - by apply turn_exit.
  - by apply loop_exit.
  - destruct (run_eq R (user_input :: rest) σ) as (σ0 & Hrun & _ & _ & Hcalls).
    exists σ0. split; [|done]. rewrite Hrun. by apply loop_exit.
Qed.

Lemma exit_ends_session_without_remote_call_witness :
  loop scripted ["ExIt"; "never read"] (new_session silent connected_client)
    = (Return tt, new_session silent connected_client).
Proof.
  apply (exit_ends_session_without_remote_call scripted "ExIt" ["never read"]
           (new_session silent connected_client)).
  reflexivity.
Defined.

(** C5, at the line ["/"].  The list of words of the command is empty, and
    taking its first element raises [IndexError] before the [try] block is
    entered: the turn, the loop and [run] all end by raising, and the lines
    that follow are never read. *)
Theorem slash_alone_ends_session {W : Type} (R : Remote W)
    (rest : list string) (σ : State W) :
  (∃ σ', turn R "/" σ = (Raise (IndexError "list index out of range"), σ'))
  ∧ (∃ σ', loop R ("/" :: rest) σ = (Raise (IndexError "list index out of range"), σ'))
  ∧ (∃ σ', run R ("/" :: rest) σ = (Raise (IndexError "list index out of range"), σ')).
Proof.
  split_and!.
  - eexists. apply turn_slash.
  - eexists. apply loop_raise, turn_slash.
  - destruct (run_eq R ("/" :: rest) σ) as (σ0 & Hrun & _).
    eexists. rewrite Hrun. apply loop_raise, turn_slash.
Qed.

(** The same happens when the listing of the tools fails: [get_tools] is
    called outside any [try] block. *)
Example tool_listing_failure_ends_session :
  ∃ σ',
    run scripted ["When is the Q3 review?"; "never read"]
      (new_session silent connected_client)
    = (Raise (OtherException "RuntimeError" "no reply left"), σ').
Proof. eexists. vm_compute. reflexivity. Qed.

(** ** The meeting server *)

Lemma store_get_set d k m k' :
  store_get (store_set d k m) k' = if String.eqb k k' then Some m else store_get d k'.
Proof.
  induction d as [|[k0 m0] d IH]; simpl.
  - by destruct (String.eqb k k').
  - destruct (String.eqb_spec k0 k) as [->|Hne]; simpl.
    + by destruct (String.eqb k k').
    + rewrite IH. destruct (String.eqb_spec k0 k') as [->|Hne']; [|done].
      by destruct (String.eqb_spec k k').
Qed.

Lemma store_set_fresh d k m :
  store_get d k = None -> store_set d k m = d ++ [(k, m)].
Proof.
  induction d as [|[k0 m0] d IH]; simpl; [done|].
  destruct (String.eqb k0 k); [done|]. intros Hd. by rewrite IH.
Qed.

Lemma store_get_alter f d k k' :
  store_get (store_alter f d k) k' =
    if String.eqb k k' then f <$> store_get d k else store_get d k'.
Proof.
  induction d as [|[k0 m0] d IH]; simpl.
  - by destruct (String.eqb k k').
  - destruct (String.eqb_spec k0 k) as [->|Hne]; simpl.
    + by destruct (String.eqb k k').
    + rewrite IH. destruct (String.eqb_spec k0 k') as [->|Hne']; [|done].
      by destruct (String.eqb_spec k k').
Qed.

Lemma store_alter_keys f d k : (store_alter f d k).*1 = d.*1.
Proof.
  induction d as [|[k0 m0] d IH]; csimpl; [done|].
  destruct (String.eqb k0 k); csimpl; [done|]. by rewrite IH.
Qed.

Lemma store_get_None_keys d k : store_get d k = None <-> k ∉ d.*1.
Proof.
  induction d as [|[k0 m0] d IH]; csimpl.
  - split; [intros _; apply not_elem_of_nil|done].
  - rewrite not_elem_of_cons, <- IH.
    destruct (String.eqb_spec k0 k) as [->|Hne].
    + split; [done|]. by intros [[] _].
    + split; [by intros ?; split; [congruence|]|by intros [_ ?]].
Qed.

Lemma store_mem_true d k : store_mem d k = true <-> is_Some (store_get d k).
Proof. unfold store_mem. destruct (store_get d k); split; try done; by intros []. Qed.

Lemma store_mem_false d k : store_mem d k = false <-> store_get d k = None.
Proof. unfold store_mem. by destruct (store_get d k). Qed.

Lemma join_snoc sep l x :
  l ≠ [] -> PyStr.join sep (l ++ [x]) = PyStr.join sep l +:+ sep +:+ x.
Proof.
  induction l as [|y l IH]; [done|]. intros _.
  destruct l as [|z l]; [done|].
  change (PyStr.join sep ((y :: z :: l) ++ [x]))
    with (y +:+ sep +:+ PyStr.join sep ((z :: l) ++ [x])).
  rewrite IH by done.
  change (PyStr.join sep (y :: z :: l)) with (y +:+ sep +:+ PyStr.join sep (z :: l)).
  by rewrite !append_assoc.
Qed.

Lemma schedule_meeting_keeps_existing_spec (topic : string) (s : Server) :
  let reply := (schedule_meeting topic s).1 in
  let s' := (schedule_meeting topic s).2 in
  (∀ t m, store_get (meetings s) t = Some m -> store_get (meetings s') t = Some m)
  ∧ is_Some (store_get (meetings s') topic)
  ∧ (is_Some (store_get (meetings s) topic) ->
       meetings s' = meetings s
       ∧ reply = "Error: A meeting with the topic '" +:+ topic +:+ "' already exists.")
  ∧ (store_get (meetings s) topic = None ->
       meetings s' = meetings s ++ [(topic, {| attendees := []; action_items := [] |})]
       ∧ reply = "Successfully scheduled new meeting: '" +:+ topic +:+ "'").
Proof.
  unfold schedule_meeting. simpl.
  destruct (store_mem (meetings s) topic) eqn:Hmem; simpl.
  - apply store_mem_true in Hmem. split_and!; [done|done|done|].
    intros Hnone. rewrite Hnone in Hmem. by destruct Hmem.
  - apply store_mem_false in Hmem. split_and!.
    + intros t m Ht. rewrite store_get_set.
      destruct (String.eqb_spec topic t) as [->|_]; [congruence|done].
    + rewrite store_get_set, String.eqb_refl. eauto.
    + rewrite Hmem. by intros [].
    + intros _. by rewrite store_set_fresh.
Qed.

(** X1. [schedule_meeting] never overwrites: every meeting stored before
    the call is stored unchanged after it, and the topic is stored after
    it.  On a topic already present the store is left as it is and the
    reply is the error text; on a new topic an empty meeting is added at
    the end of the dictionary. *)
Theorem schedule_meeting_keeps_existing (topic : string) (s : Server) :
  let reply := (schedule_meeting topic s).1 in
  let s' := (schedule_meeting topic s).2 in
  (∀ t m, store_get (meetings s) t = Some m -> store_get (meetings s') t = Some m)
  ∧ is_Some (store_get (meetings s') topic)
  ∧ (is_Some (store_get (meetings s) topic) ->
       meetings s' = meetings s
       ∧ reply = "Error: A meeting with the topic '" +:+ topic +:+ "' already exists.")
  ∧ (store_get (meetings s) topic = None ->
       meetings s' = meetings s ++ [(topic, {| attendees := []; action_items := [] |})]
       ∧ reply = "Successfully scheduled new meeting: '" +:+ topic +:+ "'").
Proof. exact (schedule_meeting_keeps_existing_spec topic s). Qed.

Lemma schedule_meeting_keeps_existing_witness :
  (schedule_meeting "Q3" (schedule_meeting "Q3" new_server).2).1
    = "Error: A meeting with the topic 'Q3' already exists."
  ∧ meetings (schedule_meeting "Q3" (schedule_meeting "Q3" new_server).2).2
    = meetings (schedule_meeting "Q3" new_server).2
  ∧ meetings (schedule_meeting "Q3" new_server).2
    = [("Q3", {| attendees := []; action_items := [] |})].
Proof.
  destruct (schedule_meeting_keeps_existing "Q3" (schedule_meeting "Q3" new_server).2)
    as (_ & _ & Hold & _).
  destruct (schedule_meeting_keeps_existing "Q3" new_server) as (_ & _ & _ & Hnew).
  destruct Hold as [Hm Hr]; [by eexists|].
  destruct Hnew as [Hm' _]; [reflexivity|].
  split_and!; [exact Hr|exact Hm|exact Hm'].
Defined.

Lemma add_attendee_appends_spec (topic name : string) (s : Server) :
  let reply := (add_attendee topic name s).1 in
  let s' := (add_attendee topic name s).2 in
  (store_get (meetings s) topic = None ->
     meetings s' = meetings s ∧ reply = "Error: Meeting '" +:+ topic +:+ "' not found.")
  ∧ (∀ m, store_get (meetings s) topic = Some m ->
       store_get (meetings s') topic
         = Some {| attendees := attendees m ++ [name]; action_items := action_items m |}
       ∧ reply = "Successfully added attendee '" +:+ name +:+ "' to meeting '"
                   +:+ topic +:+ "'.")
  ∧ (∀ t, t ≠ topic -> store_get (meetings s') t = store_get (meetings s) t)
  ∧ topics s' = topics s.
Proof.
  unfold add_attendee, topics. simpl.
  destruct (store_mem (meetings s) topic) eqn:Hmem; simpl.
  - apply store_mem_true in Hmem as [m0 Hm0]. split_and!.
    + by rewrite Hm0.
    + intros m Hm. rewrite store_get_alter, String.eqb_refl, Hm. done.
    + intros t Ht. rewrite store_get_alter.
      destruct (String.eqb_spec topic t); [congruence|done].
    + apply store_alter_keys.
  - apply store_mem_false in Hmem. split_and!; try done.
    intros m Hm. congruence.
Qed.

(** X2. [add_attendee] on a topic that is not stored changes nothing and
    replies with the error text.  On a stored topic it appends the name at
    the end of that meeting's attendees, also when the name is already
    there, and leaves its action items, every other meeting and the order
    of the topics as they were. *)
Theorem add_attendee_appends (topic name : string) (s : Server) :
  let reply := (add_attendee topic name s).1 in
  let s' := (add_attendee topic name s).2 in
  (store_get (meetings s) topic = None ->
     meetings s' = meetings s ∧ reply = "Error: Meeting '" +:+ topic +:+ "' not found.")
  ∧ (∀ m, store_get (meetings s) topic = Some m ->
       store_get (meetings s') topic
         = Some {| attendees := attendees m ++ [name]; action_items := action_items m |}
       ∧ reply = "Successfully added attendee '" +:+ name +:+ "' to meeting '"
                   +:+ topic +:+ "'.")
  ∧ (∀ t, t ≠ topic -> store_get (meetings s') t = store_get (meetings s) t)
  ∧ topics s' = topics s.
Proof. exact (add_attendee_appends_spec topic name s). Qed.

Lemma add_attendee_appends_witness :
  store_get
    (meetings (add_attendee "Q3" "Alice"
                 (add_attendee "Q3" "Alice" (schedule_meeting "Q3" new_server).2).2).2) "Q3"
    = Some {| attendees := ["Alice"; "Alice"]; action_items := [] |}
  ∧ meetings (add_attendee "Q4" "Bob" new_server).2 = [].
Proof.
  destruct (add_attendee_appends "Q3" "Alice"
              (add_attendee "Q3" "Alice" (schedule_meeting "Q3" new_server).2).2)
    as (_ & Hknown & _).
  destruct (add_attendee_appends "Q4" "Bob" new_server) as (Hunknown & _).
  split.
  - apply (Hknown {| attendees := ["Alice"]; action_items := [] |}). reflexivity.
  - apply Hunknown. reflexivity.
Defined.

Lemma add_action_item_appends_spec (topic item : string) (s : Server) :
  let reply := (add_action_item topic item s).1 in
  let s' := (add_action_item topic item s).2 in
  (store_get (meetings s) topic = None ->
     meetings s' = meetings s ∧ reply = "Error: Meeting '" +:+ topic +:+ "' not found.")
  ∧ (∀ m, store_get (meetings s) topic = Some m ->
       store_get (meetings s') topic
         = Some {| attendees := attendees m; action_items := action_items m ++ [item] |}
       ∧ reply = "Successfully added action item to meeting '" +:+ topic +:+ "': '"
                   +:+ item +:+ "'")
  ∧ (∀ t, t ≠ topic -> store_get (meetings s') t = store_get (meetings s) t)
  ∧ topics s' = topics s.
Proof.
  unfold add_action_item, topics. simpl.
  destruct (store_mem (meetings s) topic) eqn:Hmem; simpl.
  - apply store_mem_true in Hmem as [m0 Hm0]. split_and!.
    + by rewrite Hm0.
    + intros m Hm. rewrite store_get_alter, String.eqb_refl, Hm. done.
    + intros t Ht. rewrite store_get_alter.
      destruct (String.eqb_spec topic t); [congruence|done].
    + apply store_alter_keys.
  - apply store_mem_false in Hmem. split_and!; try done.
    intros m Hm. congruence.
Qed.

(** X3. [add_action_item] on a topic that is not stored changes nothing
    and replies with the error text.  On a stored topic it appends the
    item at the end of that meeting's action items and leaves its
    attendees, every other meeting and the order of the topics as they
    were. *)
Theorem add_action_item_appends (topic item : string) (s : Server) :
  let reply := (add_action_item topic item s).1 in
  let s' := (add_action_item topic item s).2 in
  (store_get (meetings s) topic = None ->
     meetings s' = meetings s ∧ reply = "Error: Meeting '" +:+ topic +:+ "' not found.")
  ∧ (∀ m, store_get (meetings s) topic = Some m ->
       store_get (meetings s') topic
         = Some {| attendees := attendees m; action_items := action_items m ++ [item] |}
       ∧ reply = "Successfully added action item to meeting '" +:+ topic +:+ "': '"
                   +:+ item +:+ "'")
  ∧ (∀ t, t ≠ topic -> store_get (meetings s') t = store_get (meetings s) t)
  ∧ topics s' = topics s.
Proof. exact (add_action_item_appends_spec topic item s). Qed.

Lemma add_action_item_appends_witness :
  store_get
    (meetings (add_action_item "Q3" "Finalize revenue report"
                 (schedule_meeting "Q3" new_server).2).2) "Q3"
    = Some {| attendees := []; action_items := ["Finalize revenue report"] |}
  ∧ meetings (add_action_item "Q4" "Book a room" new_server).2 = [].
Proof.
  destruct (add_action_item_appends "Q3" "Finalize revenue report"
              (schedule_meeting "Q3" new_server).2) as (_ & Hknown & _).
  destruct (add_action_item_appends "Q4" "Book a room" new_server) as (Hunknown & _).
  split.
  - apply (Hknown {| attendees := []; action_items := [] |}). reflexivity.
  - apply Hunknown. reflexivity.
Defined.

Lemma get_meeting_details_meetings topic s :
  meetings (get_meeting_details topic s).2 = meetings s.
Proof.
  unfold get_meeting_details. simpl. by destruct (store_get (meetings s) topic) eqn:E.
Qed.

Lemma list_all_meetings_meetings s : meetings (list_all_meetings s).2 = meetings s.
Proof. unfold list_all_meetings. simpl. by destruct (meetings s) eqn:E. Qed.

(** One call: the topics stored before are a prefix of those stored
    after, and stay without repetition. *)
Lemma serve_topics r s :
  topics s `prefix_of` topics (serve r s).2
  ∧ (NoDup (topics s) -> NoDup (topics (serve r s).2)).
Proof.
  destruct r as [topic|topic name|topic item|topic|]; simpl.
  - destruct (schedule_meeting_keeps_existing_spec topic s) as (_ & _ & Hold & Hnew).
    destruct (store_get (meetings s) topic) as [m|] eqn:Hget.
    + destruct Hold as [Hm _]; [by eexists|]. unfold topics. by rewrite Hm.
    + destruct Hnew as [Hm _]; [done|]. unfold topics. rewrite Hm, fmap_app. csimpl.
      split; [by apply prefix_app_r|].
      intros Hnd. apply NoDup_app. split_and!; [done| |apply NoDup_singleton].
      intros x Hx ->%list_elem_of_singleton. by apply store_get_None_keys in Hget.
  - destruct (add_attendee_appends_spec topic name s) as (_ & _ & _ & ->). done.
  - destruct (add_action_item_appends_spec topic item s) as (_ & _ & _ & ->). done.
  - unfold topics. by rewrite get_meeting_details_meetings.
  - unfold topics. by rewrite list_all_meetings_meetings.
Qed.

(** X4. Whatever sequence of tool calls the server receives, the topics
    stored before it are still stored after it, in the same order and
    before any new topic (no tool removes or reorders a meeting), and a
    store without a repeated topic stays without one. *)
Theorem topics_kept_and_unique (rs : list ToolRequest) (s : Server) :
  NoDup (topics s) ->
  NoDup (topics (serve_all rs s).2)
  ∧ topics s `prefix_of` topics (serve_all rs s).2.
Proof.
  revert s. induction rs as [|r rs IH]; intros s Hnd; simpl; [done|].
  destruct (serve_topics r s) as [Hpre Hnd'].
  destruct (serve r s) as [reply s1]. simpl in *.
  specialize (IH s1 (Hnd' Hnd)).
  destruct (serve_all rs s1) as [replies s2]. simpl in *.
  destruct IH as [IH1 IH2]. split; [done|by etransitivity].
Qed.

Lemma topics_kept_and_unique_witness :
  NoDup (topics (serve_all [ScheduleMeeting "Q3"; ScheduleMeeting "Alpha";
                            ScheduleMeeting "Q3"; AddAttendee "Alpha" "Dana"]
                   new_server).2)
  ∧ topics (serve_all [ScheduleMeeting "Q3"; ScheduleMeeting "Alpha";
                       ScheduleMeeting "Q3"; AddAttendee "Alpha" "Dana"]
              new_server).2 = ["Q3"; "Alpha"].
Proof.
  split; [|reflexivity].
  apply (topics_kept_and_unique _ new_server). apply NoDup_nil_2.
Defined.

Lemma serve_grows r s topic m :
  store_get (meetings s) topic = Some m ->
  ∃ m', store_get (meetings (serve r s).2) topic = Some m'
        ∧ attendees m `prefix_of` attendees m'
        ∧ action_items m `prefix_of` action_items m'.
Proof.
  intros Hm. destruct r as [t|t name|t item|t|]; simpl.
  - destruct (schedule_meeting_keeps_existing_spec t s) as (Hkeep & _). eauto.
  - destruct (add_attendee_appends_spec t name s) as (_ & Hsome & Hother & _).
    destruct (String.eqb_spec topic t) as [->|Hne].
    + destruct (Hsome m Hm) as [-> _]. eexists. split; [done|]. simpl.
      split; [by apply prefix_app_r|done].
    + rewrite Hother by done. eauto.
  - destruct (add_action_item_appends_spec t item s) as (_ & Hsome & Hother & _).
    destruct (String.eqb_spec topic t) as [->|Hne].
    + destruct (Hsome m Hm) as [-> _]. eexists. split; [done|]. simpl.
      split; [done|by apply prefix_app_r].
    + rewrite Hother by done. eauto.
  - rewrite get_meeting_details_meetings. eauto.
  - rewrite list_all_meetings_meetings. eauto.
Qed.

(** X5. Whatever sequence of tool calls the server receives, a meeting
    stored before it is still stored after it, and its attendees and its
    action items before the calls are a prefix of those after: nothing is
    ever removed from a meeting or rewritten. *)
Theorem meeting_lists_only_grow (rs : list ToolRequest) (s : Server)
    (topic : string) (m : Meeting) :
  store_get (meetings s) topic = Some m ->
  ∃ m', store_get (meetings (serve_all rs s).2) topic = Some m'
        ∧ attendees m `prefix_of` attendees m'
        ∧ action_items m `prefix_of` action_items m'.
Proof.
  revert s m. induction rs as [|r rs IH]; intros s m Hm; simpl; [eauto|].
  destruct (serve_grows r s topic m Hm) as (m1 & Hm1 & Ha1 & Hi1).
  destruct (serve r s) as [reply s1]. simpl in *.
  destruct (IH s1 m1 Hm1) as (m2 & Hm2 & Ha2 & Hi2).
  destruct (serve_all rs s1) as [replies s2]. simpl in *.
  exists m2. split_and!; [done|by etransitivity..].
Qed.

Lemma meeting_lists_only_grow_witness :
  ∃ m', store_get
          (meetings (serve_all [AddAttendee "Q3" "Bob"; ScheduleMeeting "Q3";
                                AddActionItem "Q3" "Finalize revenue report"]
                       (serve_all [ScheduleMeeting "Q3"; AddAttendee "Q3" "Alice"]
                          new_server).2).2) "Q3" = Some m'
        ∧ ["Alice"] `prefix_of` attendees m'
        ∧ [] `prefix_of` action_items m'.
Proof.
  apply (meeting_lists_only_grow _
           (serve_all [ScheduleMeeting "Q3"; AddAttendee "Q3" "Alice"] new_server).2
           "Q3" {| attendees := ["Alice"]; action_items := [] |}).
  reflexivity.
Defined.

(** X6. A tool call whose reply starts with ["Error:"] has left the
    meetings as they were; and a call that changed the meetings replied
    with a text that starts with ["Successfully"]. *)
Theorem error_reply_changes_nothing (r : ToolRequest) (s : Server) :
  (String.prefix "Error:" (serve r s).1 = true -> meetings (serve r s).2 = meetings s)
  ∧ (meetings (serve r s).2 ≠ meetings s ->
     String.prefix "Successfully" (serve r s).1 = true).
Proof.
  destruct r as [topic|topic name|topic item|topic|]; simpl.
  - unfold schedule_meeting. simpl.
    destruct (store_mem (meetings s) topic); simpl; split; done.
  - unfold add_attendee. simpl.
    destruct (store_mem (meetings s) topic); simpl; split; done.
  - unfold add_action_item. simpl.
    destruct (store_mem (meetings s) topic); simpl; split; done.
  - rewrite get_meeting_details_meetings. split; done.
  - rewrite list_all_meetings_meetings. split; done.
Qed.

Lemma error_reply_changes_nothing_witness :
  meetings (serve (AddAttendee "Q4" "Bob") (schedule_meeting "Q3" new_server).2).2
    = [("Q3", {| attendees := []; action_items := [] |})]
  ∧ String.prefix "Successfully" (serve (ScheduleMeeting "Q3") new_server).1 = true.
Proof.
  destruct (error_reply_changes_nothing (AddAttendee "Q4" "Bob")
              (schedule_meeting "Q3" new_server).2) as (Herr & _).
  destruct (error_reply_changes_nothing (ScheduleMeeting "Q3") new_server) as (_ & Hok).
  split.
  - apply Herr. reflexivity.
  - apply Hok. discriminate.
Defined.

Lemma get_meeting_details_reply topic s :
  (get_meeting_details topic s).1 =
    match store_get (meetings s) topic with
    | Some details => details_text topic details
    | None => "Error: Meeting '" +:+ topic +:+ "' not found."
    end.
Proof.
  unfold get_meeting_details. simpl. by destruct (store_get (meetings s) topic).
Qed.

(** X7. What was written is what is read back.  Right after a new topic
    is scheduled, [get_meeting_details] reports no attendee and no action
    item; right after [add_attendee] or [add_action_item] on a stored
    meeting, it reports the meeting with the new entry at the end of its
    list; on a topic that is not stored it replies with the error text. *)
Theorem details_read_back_writes (topic : string) (s : Server) :
  (store_get (meetings s) topic = None ->
     (get_meeting_details topic s).1 = "Error: Meeting '" +:+ topic +:+ "' not found."
     ∧ (get_meeting_details topic (schedule_meeting topic s).2).1
       = "Details for meeting '" +:+ topic +:+ "':" +:+ newline
           +:+ "Attendees: None" +:+ newline
           +:+ "Action Items:" +:+ newline +:+ "No action items.")
  ∧ (∀ m name, store_get (meetings s) topic = Some m ->
       (get_meeting_details topic (add_attendee topic name s).2).1
       = details_text topic
           {| attendees := attendees m ++ [name]; action_items := action_items m |})
  ∧ (∀ m item, store_get (meetings s) topic = Some m ->
       (get_meeting_details topic (add_action_item topic item s).2).1
       = details_text topic
           {| attendees := attendees m; action_items := action_items m ++ [item] |}).
Proof.
  split_and!.
  - intros Hnone. rewrite !get_meeting_details_reply, Hnone. split; [done|].
    destruct (schedule_meeting_keeps_existing_spec topic s) as (_ & _ & _ & Hnew).
    destruct (Hnew Hnone) as [-> _].
    assert (store_get (meetings s ++ [(topic, {| attendees := []; action_items := [] |})]) topic
            = Some {| attendees := []; action_items := [] |}) as ->.
    { rewrite <- (store_set_fresh _ _ _ Hnone), store_get_set. by rewrite String.eqb_refl. }
    reflexivity.
  - intros m name Hm. rewrite get_meeting_details_reply.
    destruct (add_attendee_appends_spec topic name s) as (_ & Hknown & _).
    by destruct (Hknown m Hm) as [-> _].
  - intros m item Hm. rewrite get_meeting_details_reply.
    destruct (add_action_item_appends_spec topic item s) as (_ & Hknown & _).
    by destruct (Hknown m Hm) as [-> _].
Qed.

Lemma details_read_back_writes_witness :
  (get_meeting_details "Q3" (schedule_meeting "Q3" new_server).2).1
    = "Details for meeting 'Q3':" +:+ newline +:+ "Attendees: None" +:+ newline
        +:+ "Action Items:" +:+ newline +:+ "No action items."
  ∧ (get_meeting_details "Q3"
       (add_attendee "Q3" "Bob"
          (add_attendee "Q3" "Alice" (schedule_meeting "Q3" new_server).2).2).2).1
    = "Details for meeting 'Q3':" +:+ newline +:+ "Attendees: Alice, Bob" +:+ newline
        +:+ "Action Items:" +:+ newline +:+ "No action items.".
Proof.
  destruct (details_read_back_writes "Q3" new_server) as (Hnew & _).
  destruct (details_read_back_writes "Q3"
              (add_attendee "Q3" "Alice" (schedule_meeting "Q3" new_server).2).2)
    as (_ & Hadd & _).
  split.
  - apply Hnew. reflexivity.
  - apply (Hadd {| attendees := ["Alice"]; action_items := [] |} "Bob"). reflexivity.
Defined.

Lemma list_all_meetings_reply s :
  meetings s ≠ [] -> (list_all_meetings s).1 = PyStr.join newline (topics s).
Proof. intros Hs. unfold list_all_meetings. simpl. by destruct (meetings s). Qed.

(** X8. [list_all_meetings] changes no meeting.  With no meeting stored it
    replies with the sentence saying so; otherwise with the topics in the
    order they were scheduled, one per line: scheduling a new topic adds
    one line with that topic at the end of the listing. *)
Theorem list_all_meetings_in_scheduling_order (topic : string) (s : Server) :
  meetings (list_all_meetings s).2 = meetings s
  ∧ (meetings s = [] ->
       (list_all_meetings s).1 = "There are no meetings scheduled at the moment."
       ∧ (list_all_meetings (schedule_meeting topic s).2).1 = topic)
  ∧ (meetings s ≠ [] ->
       (list_all_meetings s).1 = PyStr.join newline (topics s)
       ∧ (store_get (meetings s) topic = None ->
          (list_all_meetings (schedule_meeting topic s).2).1
          = (list_all_meetings s).1 +:+ newline +:+ topic)).
Proof.
  split_and!.
  - apply list_all_meetings_meetings.
  - intros Hs. unfold list_all_meetings, schedule_meeting, store_mem, topics. simpl.
    by rewrite Hs.
  - intros Hs. split; [by apply list_all_meetings_reply|]. intros Hnone.
    destruct (schedule_meeting_keeps_existing_spec topic s) as (_ & _ & _ & Hnew).
    destruct (Hnew Hnone) as [Hm _].
    rewrite !list_all_meetings_reply; [|done|by rewrite Hm; destruct (meetings s)].
    unfold topics. rewrite Hm, fmap_app. apply join_snoc.
    by destruct (meetings s).
Qed.

Lemma list_all_meetings_in_scheduling_order_witness :
  (list_all_meetings (schedule_meeting "Alpha" (schedule_meeting "Q3" new_server).2).2).1
    = "Q3" +:+ newline +:+ "Alpha"
  ∧ (list_all_meetings new_server).1 = "There are no meetings scheduled at the moment.".
Proof.
  destruct (list_all_meetings_in_scheduling_order "Alpha"
              (schedule_meeting "Q3" new_server).2) as (_ & _ & Hmore).
  destruct (list_all_meetings_in_scheduling_order "Q3" new_server) as (_ & Hnone & _).
  split.
  - destruct Hmore as [_ Hadd]; [discriminate|]. apply Hadd. reflexivity.
  - apply Hnone. reflexivity.
Defined.

(** ** White space *)

(** The white space of [PyStr.is_space], by code point: the characters
    below 256 that [str.isspace] accepts. *)
Example white_space_code_points :
  List.filter (fun n => PyStr.is_space (ascii_of_nat n)) (seq 0 256)
  = [9; 10; 11; 12; 13; 28; 29; 30; 31; 32; 133; 160].
Proof. vm_compute. reflexivity. Qed.

(** A no-break space separates words and is stripped like a blank: a
    command followed only by one has no word, and a text made of one is
    blank. *)
Example no_break_space_is_white_space :
  PyStr.split (PyStr.strip ("kickoff" +:+ nbsp +:+ "Project X" +:+ nbsp))
    = ["kickoff"; "Project"; "X"]
  ∧ PyStr.split (PyStr.strip (PyStr.tail ("/" +:+ nbsp))) = []
  ∧ PyStr.nonempty (PyStr.strip (nbsp +:+ newline)) = false.
Proof. vm_compute. split_and!; reflexivity. Qed.

(** ** Slash commands *)

Section SlashCommands.
Context {W : Type} (R : Remote W).

(** [run_prompt] on a client that holds a session: one request, with the
    arguments given; the reply is the text of the first message. *)
Lemma run_prompt_eq name arguments (σ : State W) s :
  _session (client σ) = Some s ->
  let sent :=
    match arguments with
    | Some a => if json_bool a then a else JDict []
    | None => JDict []
    end in
  run_prompt R name arguments σ =
    match session_get_prompt R name sent (world σ) with
    | (Return (Some (text :: _)), w) => (Return (Some text), answered (GetPrompt name sent) w σ)
    | (Return _, w) => (Return None, answered (GetPrompt name sent) w σ)
    | (Raise e, w) => (Raise e, answered (GetPrompt name sent) w σ)
    end.
Proof.
  intros Hs sent. unfold run_prompt. rewrite bind_eq. simpl. rewrite Hs.
  rewrite bind_eq. unfold session. rewrite bind_eq. simpl. rewrite Hs. simpl.
  rewrite bind_eq. unfold remote. fold sent.
  destruct (session_get_prompt R name sent (world σ)) as [[[[|text more]|]|e] w]; done.
Qed.

Lemma handle_slash_eq user_input prompt_name rest work (σ : State W) :
  PyStr.startswith_slash user_input = true ->
  PyStr.split (PyStr.strip (PyStr.tail user_input)) = prompt_name :: rest ->
  handle_user_input R user_input work σ =
    match run_prompt R prompt_name (Some (JDict [])) (print (RunningPrompt prompt_name) σ).2 with
    | (Return (Some text), σ1) =>
        if PyStr.nonempty text then
          (Return Completed,
           (list_append work
              (Msg "user" [Text (PyStr.strip (text +:+ newline +:+ newline
                                               +:+ PyStr.join " " rest))]) σ1).2)
        else (Return Completed, σ1)
    | (Return None, σ1) => (Return Completed, σ1)
    | (Raise e, σ1) => (Return Continue, (print (ErrorRunningPrompt e) σ1).2)
    end.
Proof.
  intros Hslash Hsplit. unfold handle_user_input. rewrite Hslash, Hsplit.
  rewrite bind_eq. cbn [print modify fst snd]. cbv beta iota.
  rewrite try_except_eq, bind_eq.
  destruct (run_prompt R prompt_name _ _) as [[[text|]|e] σ1]; [|done|done].
  by destruct (PyStr.nonempty text).
Qed.

End SlashCommands.

(** X9. A slash command whose prompt resolves to a text that is not empty
    adds exactly one user message to the working list: the text of the
    first message of the prompt, two line feeds, and the words that follow
    the command name joined by single spaces, the whole stripped.  One
    request is made, for that prompt with empty arguments. *)
Theorem slash_command_appends_prompt {W : Type} (R : Remote W)
    (user_input prompt_name : string) (rest : list string) (work : loc)
    (σ : State W) (s : ClientSession) (text : string) (more : list string) (w : W) :
  PyStr.startswith_slash user_input = true ->
  PyStr.split (PyStr.strip (PyStr.tail user_input)) = prompt_name :: rest ->
  _session (client σ) = Some s ->
  session_get_prompt R prompt_name (JDict []) (world σ) = (Return (Some (text :: more)), w) ->
  text ≠ EmptyString ->
  work < length (heap σ) ->
  ∃ σ',
    handle_user_input R user_input work σ = (Return Completed, σ')
    ∧ heap σ' !!! work
      = heap σ !!! work
          ++ [Msg "user" [Text (PyStr.strip (text +:+ newline +:+ newline
                                              +:+ PyStr.join " " rest))]]
    ∧ calls σ' = calls σ ++ [GetPrompt prompt_name (JDict [])].
Proof.
  intros Hslash Hsplit Hs Hprompt Htext Hwork.
  rewrite (handle_slash_eq R _ _ _ _ _ Hslash Hsplit).
  rewrite (run_prompt_eq R _ _ _ s) by done. simpl. rewrite Hprompt.
  destruct text as [|c text]; [done|]. simpl.
  eexists. split; [reflexivity|]. simpl. split; [|done].
  apply list_lookup_total_correct. by apply list_lookup_insert_eq.
Qed.

Lemma slash_command_appends_prompt_witness :
  ∃ σ',
    handle_user_input scripted ("/kickoff" +:+ nbsp +:+ "  Project   X ") 0
      (new_session (prompting ["Plan the kickoff."]) connected_client)
    = (Return Completed, σ')
    ∧ heap σ' !!! 0
      = [Msg "user" [Text ("Plan the kickoff." +:+ newline +:+ newline +:+ "Project X")]]
    ∧ calls σ' = [GetPrompt "kickoff" (JDict [])].
Proof.
  edestruct (slash_command_appends_prompt scripted
               ("/kickoff" +:+ nbsp +:+ "  Project   X ") "kickoff"
               ["Project"; "X"] 0
               (new_session (prompting ["Plan the kickoff."]) connected_client)
               TheSession "Plan the kickoff." [])
    as (σ' & Hrun & Hheap & Hcalls);
    [reflexivity|reflexivity|reflexivity|reflexivity|discriminate|simpl; lia|].
  exists σ'. split_and!; [exact Hrun|exact Hheap|exact Hcalls].
Defined.

(** X10. A slash command whose prompt resolves to nothing - no result, no
    message, or a first message with empty text - adds no message and is
    not an error: [handle_user_input] ends normally with every list as it
    was, after one request for that prompt with empty arguments. *)
Theorem slash_command_without_text_adds_nothing {W : Type} (R : Remote W)
    (user_input prompt_name : string) (rest : list string) (work : loc)
    (σ : State W) (s : ClientSession) (reply : option (list string)) (w : W) :
  PyStr.startswith_slash user_input = true ->
  PyStr.split (PyStr.strip (PyStr.tail user_input)) = prompt_name :: rest ->
  _session (client σ) = Some s ->
  session_get_prompt R prompt_name (JDict []) (world σ) = (Return reply, w) ->
  (reply = None ∨ reply = Some [] ∨ ∃ more, reply = Some (EmptyString :: more)) ->
  ∃ σ',
    handle_user_input R user_input work σ = (Return Completed, σ')
    ∧ heap σ' = heap σ
    ∧ calls σ' = calls σ ++ [GetPrompt prompt_name (JDict [])].
Proof.
  intros Hslash Hsplit Hs Hprompt Hreply.
  rewrite (handle_slash_eq R _ _ _ _ _ Hslash Hsplit).
  rewrite (run_prompt_eq R _ _ _ s) by done. simpl. rewrite Hprompt.
  destruct Hreply as [->|[->|[more ->]]]; simpl; eexists; split_and!; reflexivity.
Qed.

Lemma slash_command_without_text_adds_nothing_witness :
  ∃ σ',
    handle_user_input scripted "/minutes" 0 (new_session (prompting []) connected_client)
    = (Return Completed, σ')
    ∧ heap σ' = [[]]
    ∧ calls σ' = [GetPrompt "minutes" (JDict [])].
Proof.
  edestruct (slash_command_without_text_adds_nothing scripted "/minutes" "minutes" [] 0
               (new_session (prompting []) connected_client) TheSession (Some []))
    as (σ' & Hrun & Hheap & Hcalls);
    [reflexivity|reflexivity|reflexivity|reflexivity|right; left; reflexivity|].
  exists σ'. split_and!; [exact Hrun|exact Hheap|exact Hcalls].
Defined.

(** ** Histories only grow *)

Section Growth.
Context {W : Type} (R : Remote W).

#[global] Instance grows_preorder l : PreOrder (@grows W l).
Proof.
  split.
  - intros σ. unfold grows. reflexivity.
  - intros σ1 σ2 σ3 H1 H2. unfold grows in *. by etransitivity.
Qed.

Lemma keeps_same_store_grows l {A} (c : M (State W) A) :
  keeps same_store c -> keeps (grows l) c.
Proof. intros Hc σ. destruct (Hc σ) as [Hh _]. unfold grows. by rewrite Hh. Qed.

Lemma list_append_grows l l' m : keeps (grows l) (list_append l' m : M (State W) unit).
Proof.
  intros σ. unfold grows. simpl.
  destruct (decide (l' = l)) as [->|Hne].
  - destruct (decide (l < length (heap σ))) as [Hl|Hl].
    + rewrite (list_lookup_total_correct (<[l:=heap σ !!! l ++ [m]]> (heap σ)) l
                 (heap σ !!! l ++ [m]));
        [by apply prefix_app_r|].
      by apply list_lookup_insert_eq.
    + by rewrite list_insert_ge by lia.
  - by rewrite !list_lookup_total_alt, list_lookup_insert_ne.
Qed.

Lemma modify_history_grows l l' : keeps (grows l) (modify (set_history l') : M (State W) unit).
Proof. intros σ. unfold grows. simpl. reflexivity. Qed.

Hint Resolve list_append_grows modify_history_grows : keeps.

Ltac grows_auto :=
  repeat keeps_step;
  first [solve [eauto with keeps]
        |solve [apply keeps_same_store_grows; eauto with keeps]].

Lemma add_valid_model_response_grows l response messages :
  keeps (grows l) (_add_valid_model_response response messages : M (State W) unit).
Proof. unfold _add_valid_model_response, add_message_to_history. grows_auto. Qed.

Lemma handle_user_input_grows l user_input work :
  keeps (grows l) (handle_user_input R user_input work).
Proof. unfold handle_user_input, add_message_to_history. grows_auto. Qed.

Hint Resolve add_valid_model_response_grows handle_user_input_grows : keeps.

Lemma tool_round_grows l response work : keeps (grows l) (tool_round R response work).
Proof. unfold tool_round, add_message_to_history. grows_auto. Qed.

Hint Resolve tool_round_grows : keeps.

Lemma conversational_flow_grows l work : keeps (grows l) (conversational_flow R work).
Proof. unfold conversational_flow. grows_auto. Qed.

Lemma turn_grows user_input (σ σ' : State W) flow :
  well_formed σ ->
  turn R user_input σ = (flow, σ') ->
  committed σ `prefix_of` committed σ'.
Proof.
  intros Hwf Hturn.
  destruct (turn_outcome R user_input σ σ' flow Hwf Hturn)
    as (_ & _ & [(-> & Hhist)|(_ & _ & ->)]); [|done].
  revert Hturn. unfold turn.
  destruct (String.eqb (PyStr.lower user_input) "exit"); [done|].
  rewrite bind_eq. simpl. rewrite bind_eq. simpl. rewrite bind_eq.
  set (work := length (heap σ)) in *.
  set (σ0 := set_heap (heap σ ++ [heap σ !!! history σ]) σ).
  change (list_new (heap σ !!! history σ) σ) with (Return work, σ0).
  cbv beta iota. intros Hrest.
  assert (grows work σ0 σ') as Hgrow.
  { eapply keeps_run; [|exact Hrest].
    apply keeps_bind; [typeclasses eauto|apply handle_user_input_grows|].
    intros [| |]; [apply keeps_ret; typeclasses eauto..|apply conversational_flow_grows]. }
  unfold grows, committed in *. rewrite Hhist.
  replace (heap σ0 !!! work) with (heap σ !!! history σ) in Hgrow; [done|].
  subst σ0 work. simpl. symmetry. apply list_lookup_total_correct.
  rewrite lookup_app_r by lia. by rewrite Nat.sub_diag.
Qed.

Lemma loop_grows lines (σ σ' : State W) r :
  well_formed σ ->
  loop R lines σ = (r, σ') ->
  committed σ `prefix_of` committed σ' ∧ well_formed σ'.
Proof.
  revert σ. induction lines as [|user_input rest IH]; intros σ Hwf; simpl.
  - by intros [= <- <-].
  - rewrite bind_eq. destruct (turn R user_input σ) as [flow σ1] eqn:Hturn.
    pose proof (turn_grows _ _ _ _ Hwf Hturn) as Hpre.
    destruct (turn_outcome R _ _ _ _ Hwf Hturn) as (Hwf1 & _).
    destruct flow as [[| |]|e]; try (by intros [= <- <-]);
      intros Hloop; destruct (IH σ1 Hwf1 Hloop) as [Hpre' Hwf']; split; [|done| |done];
      by etransitivity.
Qed.

Lemma run_grows lines (σ σ' : State W) r :
  well_formed σ ->
  run R lines σ = (r, σ') ->
  committed σ `prefix_of` committed σ' ∧ well_formed σ'.
Proof.
  intros Hwf. destruct (run_eq R lines σ) as (σ0 & -> & [Hheap Hhist] & _).
  intros Hloop. apply loop_grows in Hloop as [Hpre Hwf'].
  - split; [|done]. unfold committed in *. by rewrite Hheap, Hhist in Hpre.
  - unfold well_formed in *. by rewrite Hheap, Hhist.
Qed.

End Growth.

(** X12. The history is only ever extended.  After one turn, and after a
    whole run over any lines of input, however it ends, the items the
    history had before are the first items of the history after: no
    message of an earlier turn is removed or replaced. *)
Theorem history_only_grows {W : Type} (R : Remote W) (σ : State W) :
  well_formed σ ->
  (∀ user_input flow σ',
     turn R user_input σ = (flow, σ') -> committed σ `prefix_of` committed σ')
  ∧ (∀ lines r σ',
       run R lines σ = (r, σ') ->
       committed σ `prefix_of` committed σ' ∧ well_formed σ').
Proof.
  intros Hwf. split.
  - intros user_input flow σ'. by apply turn_grows.
  - intros lines r σ'. by apply run_grows.
Qed.

Lemma history_only_grows_witness :
  committed (run scripted ["Hello"; "exit"]
               (new_session (answering "Hi.") connected_client)).2
  = [Msg "user" [Text "Hello"]; ModelContent {| parts := [Text "Hi."] |}]
  ∧ [] `prefix_of`
      committed (run scripted ["Hello"; "exit"]
                   (new_session (answering "Hi.") connected_client)).2.
Proof.
  split; [vm_compute; reflexivity|].
  destruct (history_only_grows scripted (new_session (answering "Hi.") connected_client))
    as [_ Hrun].
  - unfold well_formed. simpl. lia.
  - eapply Hrun. apply surjective_pairing.
Defined.

(** ** A turn that commits *)

Arguments request_tools : simpl never.

Section Commit.
Context {W : Type} (R : Remote W).

Lemma list_tools_eq (σ : State W) s :
  _session (client σ) = Some s ->
  list_tools R σ =
    ((session_list_tools R (world σ)).1,
     answered ListTools (session_list_tools R (world σ)).2 σ).
Proof.
  intros Hs. unfold list_tools. rewrite bind_eq. unfold session. rewrite bind_eq.
  simpl. rewrite Hs. simpl. unfold remote.
  by destruct (session_list_tools R (world σ)).
Qed.

Lemma get_tools_eq (σ : State W) s :
  _session (client σ) = Some s ->
  get_tools R σ =
    (match (session_list_tools R (world σ)).1 with
     | Return listed => Return (map gemini_tool listed)
     | Raise e => Raise e
     end,
     answered ListTools (session_list_tools R (world σ)).2 σ).
Proof.
  intros Hs. unfold get_tools. rewrite bind_eq, (list_tools_eq _ s Hs).
  by destruct (session_list_tools R (world σ)) as [[listed|e] w].
Qed.

Lemma text_from_message_eq (r : Response) (σ : State W) text :
  response_text R r = Return text ->
  text_from_message R (Some r) σ = (Return text, σ).
Proof. intros Ht. unfold text_from_message. by rewrite Ht. Qed.

End Commit.

(** X11. A turn on plain text, to which the model answers with parts that
    request no tool, is committed: the history becomes the history before,
    then the user message with the line as it was typed, then the content
    of the response.  The turn makes two remote calls, the listing of the
    tools and one request to the model carrying the history with the user
    message, and prints the text of the response, or the notice when that
    text is blank. *)
Theorem plain_turn_commits {W : Type} (R : Remote W) (user_input : string)
    (σ : State W) (s : ClientSession) (listed : list Tool) (w1 w2 : W)
    (r : Response) (c : Candidate) (cs : list Candidate) (p : Part) (ps : list Part)
    (text : string) :
  well_formed σ ->
  PyStr.lower user_input ≠ "exit" ->
  PyStr.startswith_slash user_input = false ->
  _session (client σ) = Some s ->
  session_list_tools R (world σ) = (Return listed, w1) ->
  generate_content R (committed σ ++ [Msg "user" [Text user_input]])
    (request_tools (Some (map gemini_tool listed))) w1 = (Return r, w2) ->
  candidates r = c :: cs ->
  parts (content c) = p :: ps ->
  function_calls_of (p :: ps) = [] ->
  response_text R r = Return text ->
  ∃ σ',
    turn R user_input σ = (Return Completed, σ')
    ∧ committed σ'
      = committed σ ++ [Msg "user" [Text user_input]; ModelContent (content c)]
    ∧ calls σ'
      = calls σ ++ [ListTools;
                    GenerateContent (committed σ ++ [Msg "user" [Text user_input]])
                      (request_tools (Some (map gemini_tool listed)))]
    ∧ stdout σ'
      = stdout σ ++ [if PyStr.nonempty (PyStr.strip text)
                     then FinalText text else NoResponseNotice].
Proof.
  intros Hwf Hexit Hslash Hs Htools Hgen Hcand Hparts Hcalls Htext.
  unfold well_formed, committed in *.
  unfold turn. apply String.eqb_neq in Hexit. rewrite Hexit.
  rewrite bind_eq. simpl. rewrite bind_eq. simpl. rewrite bind_eq.
  set (user := Msg "user" [Text user_input]) in *.
  set (work := length (heap σ)).
  set (old := heap σ !!! history σ) in *.
  set (σ0 := set_heap (heap σ ++ [old]) σ).
  change (list_new old σ) with (Return work, σ0). cbv beta iota.
  rewrite bind_eq. unfold handle_user_input. rewrite Hslash.
  rewrite bind_eq. unfold add_message_to_history. fold user.
  assert (heap σ0 !!! work = old) as Hwork0.
  { subst σ0 work. cbn [heap set_heap]. by apply list_lookup_total_middle. }
  set (σa := (list_append work user σ0).2).
  change (list_append work user σ0) with (Return tt, σa). cbv beta iota.
  assert (heap σa = heap σ ++ [old ++ [user]]) as Hheapa.
  { subst σa. unfold list_append, modify. cbn [snd heap set_heap]. rewrite Hwork0.
    subst σ0 work. cbn [heap set_heap].
    rewrite insert_app_r_alt by lia. by rewrite Nat.sub_diag. }
  assert (heap σa !!! work = old ++ [user]) as Hworka.
  { rewrite Hheapa. by apply list_lookup_total_middle. }
  assert (world σa = world σ ∧ calls σa = calls σ ∧ stdout σa = stdout σ
          ∧ client σa = client σ ∧ history σa = history σ) as (Hwa & Hca & Hoa & Hcla & Hha)
    by done.
  clearbody σa. clear σ0 Hwork0.
  change ((mret Completed : M (State W) Flow) σa) with (Return Completed, σa).
  cbv beta iota.
  unfold conversational_flow.
  rewrite bind_eq, (get_tools_eq R σa s) by (by rewrite Hcla).
  rewrite Hwa, Htools. cbn [fst snd].
  rewrite bind_eq, chat_eq. cbn [world answered set_world set_calls heap].
  rewrite Hworka, Hgen.
  rewrite bind_eq. unfold _add_valid_model_response. rewrite Hcand, Hparts.
  unfold add_message_to_history.
  set (σb := answered _ w2 (answered ListTools w1 σa)).
  assert (heap σb = heap σa ∧ calls σb = calls σ ++ [ListTools;
            GenerateContent (old ++ [user]) (request_tools (Some (map gemini_tool listed)))]
          ∧ stdout σb = stdout σ) as (Hhb & Hcb & Hob).
  { subst σb. simpl. rewrite Hca, Hoa, <- app_assoc. done. }
  clearbody σb.
  set (σc := (list_append work (ModelContent (content c)) σb).2).
  change (list_append work (ModelContent (content c)) σb) with (Return tt, σc).
  cbv beta iota.
  assert (heap σc !!! work = old ++ [user; ModelContent (content c)]) as Hworkc.
  { subst σc. simpl. rewrite Hhb, Hworka, Hheapa.
    apply list_lookup_total_correct.
    rewrite list_lookup_insert_eq
      by (rewrite length_app; subst work; simpl; lia).
    by rewrite <- app_assoc. }
  assert (calls σc = calls σb ∧ stdout σc = stdout σb) as (Hcc & Hoc) by done.
  clearbody σc.
  rewrite bind_eq. unfold tool_round.
  rewrite bind_eq, execute_tool_requests_eq.
  assert (requested (Some r) = []) as ->.
  { unfold requested. by rewrite Hcand, Hparts. }
  cbn [tool_outcomes zip_with fst snd].
  rewrite bind_eq, (text_from_message_eq R r σc text Htext). cbv beta iota.
  cbn [mret M_ret ret]. cbv beta iota.
  rewrite bind_eq. cbn [modify]. cbv beta iota. rewrite bind_eq.
  destruct (PyStr.nonempty (PyStr.strip text));
    cbn [print modify]; cbv beta iota; eexists; (split; [reflexivity|]);
    cbn [history heap calls stdout set_history set_stdout];
    rewrite Hworkc, Hcc, Hcb, Hoc, Hob; done.
Qed.

Lemma plain_turn_commits_witness :
  ∃ σ',
    turn scripted "Hello" (new_session (answering "Hi.") connected_client)
      = (Return Completed, σ')
    ∧ committed σ'
      = [Msg "user" [Text "Hello"]; ModelContent {| parts := [Text "Hi."] |}]
    ∧ stdout σ' = [FinalText "Hi."].
Proof.
  edestruct (plain_turn_commits scripted "Hello"
               (new_session (answering "Hi.") connected_client) TheSession [])
    as (σ' & Hrun & Hhist & _ & Hout);
    [unfold well_formed; simpl; lia|discriminate|reflexivity|reflexivity|reflexivity
    |reflexivity|reflexivity|reflexivity|reflexivity|reflexivity|].
  exists σ'. split_and!; [exact Hrun|exact Hhist|exact Hout].
Defined.

(** ** The start of [run] *)

(** X13. A failure to list the prompts does not stop the session.  [run]
    prints one line - the tip with the prompts, or the reason they could
    not be fetched - and then runs the loop over the lines from a state
    with the same lists, history and client.  On a client without a
    session the reason is the [ConnectionError] of [list_prompts] and no
    remote call is made; otherwise exactly one call, the listing, is. *)
Theorem run_proceeds_after_prompt_listing {W : Type} (R : Remote W)
    (lines : list string) (σ : State W) :
  ∃ σ0 line,
    run R lines σ = loop R lines σ0
    ∧ stdout σ0 = stdout σ ++ [line]
    ∧ heap σ0 = heap σ ∧ history σ0 = history σ ∧ client σ0 = client σ
    ∧ match _session (client σ) with
      | None =>
          line = CouldNotFetchPrompts (ConnectionError "Not connected to the MCP server.")
          ∧ calls σ0 = calls σ ∧ world σ0 = world σ
      | Some _ =>
          line = match (session_list_prompts R (world σ)).1 with
                 | Return prompts => Tip prompts
                 | Raise e => CouldNotFetchPrompts e
                 end
          ∧ calls σ0 = calls σ ++ [ListPrompts]
          ∧ world σ0 = (session_list_prompts R (world σ)).2
      end.
Proof.
  unfold run. rewrite bind_eq, try_except_eq, bind_eq.
  unfold list_prompts. rewrite bind_eq. simpl.
  destruct (_session (client σ)) as [s|] eqn:Hs.
  - rewrite bind_eq. unfold session. rewrite bind_eq. simpl. rewrite Hs. simpl.
    unfold remote.
    destruct (session_list_prompts R (world σ)) as [[prompts|e] w]; simpl;
      eexists _, _; (split; [reflexivity|]); simpl; split_and!; reflexivity.
  - simpl. eexists _, _. split; [reflexivity|]. simpl. split_and!; reflexivity.
Qed.

(** ** The tool catalog *)

Lemma gemini_tool_clean (tool : Tool) :
  ∃ d, function_declarations (gemini_tool tool) = [d]
       ∧ fd_name d = tool_name tool
       ∧ fd_description d = tool_description tool
       ∧ has_title (fd_parameters d) = false
       ∧ clean_schema PyStr.upper (fd_parameters d) = fd_parameters d
       ∧ (json_bool (inputSchema tool) = false -> fd_parameters d = JDict []).
Proof.
  unfold gemini_tool. eexists. split; [reflexivity|]. simpl.
  destruct (json_bool (inputSchema tool)); split_and!; try done.
  - apply clean_schema_no_title.
  - apply clean_schema_idempotent, upper_idem.
Qed.

(** X14. The catalog [get_tools] returns has one entry per tool the server
    lists, in the same order, each with one function declaration that
    keeps the name and the description of the tool.  The parameters of
    every declaration have no ["title"] key at any depth and are left
    unchanged by a further cleaning; a tool whose schema is empty gets the
    empty dictionary.  The call makes one request, the listing. *)
Theorem get_tools_declarations_are_clean {W : Type} (R : Remote W)
    (σ σ' : State W) (available_tools : list GeminiTool) :
  get_tools R σ = (Return available_tools, σ') ->
  ∃ listed,
    (session_list_tools R (world σ)).1 = Return listed
    ∧ Forall2
        (fun tool gt =>
           ∃ d, function_declarations gt = [d]
                ∧ fd_name d = tool_name tool
                ∧ fd_description d = tool_description tool
                ∧ has_title (fd_parameters d) = false
                ∧ clean_schema PyStr.upper (fd_parameters d) = fd_parameters d
                ∧ (json_bool (inputSchema tool) = false -> fd_parameters d = JDict []))
        listed available_tools
    ∧ calls σ' = calls σ ++ [ListTools].
Proof.
  destruct (_session (client σ)) as [s|] eqn:Hs.
  - rewrite (get_tools_eq R σ s Hs).
    destruct (session_list_tools R (world σ)) as [[listed|e] w]; [|done].
    simpl. intros [= <- <-]. exists listed. split_and!; [done| |done].
    induction listed as [|tool listed IH]; constructor; [apply gemini_tool_clean|done].
  - unfold get_tools, list_tools, session. rewrite !bind_eq. simpl. by rewrite Hs.
Qed.

Lemma get_tools_declarations_are_clean_witness :
  ∃ d, (get_tools scripted
          (new_session
             {| on_connect := []; on_exit := [];
                on_list_tools :=
                  [Return [{| tool_name := "schedule_meeting";
                              tool_description := "Schedules a new, empty meeting.";
                              inputSchema := sample_schema |}]];
                on_call_tool := []; on_get_prompt := []; on_list_prompts := [];
                on_generate := [] |} connected_client)).1
       = Return [{| function_declarations := [d] |}]
       ∧ fd_name d = "schedule_meeting"
       ∧ has_title (fd_parameters d) = false.
Proof.
  edestruct (get_tools_declarations_are_clean scripted
               (new_session
                  {| on_connect := []; on_exit := [];
                     on_list_tools :=
                       [Return [{| tool_name := "schedule_meeting";
                                   tool_description := "Schedules a new, empty meeting.";
                                   inputSchema := sample_schema |}]];
                     on_call_tool := []; on_get_prompt := []; on_list_prompts := [];
                     on_generate := [] |} connected_client))
    as (listed & Hlisted & Hall & _); [vm_compute; reflexivity|].
  vm_compute in Hlisted. injection Hlisted as <-.
  inversion Hall as [|tool gt rest gts (d & Hd & Hname & _ & Htitle & _) Hrest]; subst.
  inversion Hrest; subst.
  exists d. split_and!; [|exact Hname|exact Htitle].
  simpl in Hd. injection Hd as <-. vm_compute. reflexivity.
Defined.

(** ** The calls of a tool batch *)

Section BatchCalls.
Context {W : Type} (R : Remote W).

Lemma tool_outcomes_with_session function_calls (σ : State W) s :
  _session (client σ) = Some s ->
  calls (tool_outcomes R function_calls σ).2
    = calls σ ++ map (fun c => CallTool (fc_name c) (fc_args c)) function_calls
  ∧ stdout (tool_outcomes R function_calls σ).2
    = stdout σ ++ map (fun c => CallingTool (fc_name c) (fc_args c)) function_calls.
Proof.
  revert σ. induction function_calls as [|call rest IH]; intros σ Hs; simpl.
  - by rewrite !app_nil_r.
  - unfold call_tool. rewrite bind_eq. unfold session. rewrite bind_eq. simpl.
    rewrite Hs. simpl. unfold remote. simpl.
    destruct (session_call_tool R (fc_name call) (fc_args call) (world σ)) as [outcome w].
    match goal with |- context [tool_outcomes R rest ?σ1] => specialize (IH σ1 Hs) end.
    destruct (tool_outcomes R rest _) as [outcomes σ2]. simpl in *.
    destruct IH as [-> ->]. by rewrite <- !app_assoc.
Qed.

Lemma tool_outcomes_without_session function_calls (σ : State W) :
  _session (client σ) = None ->
  (tool_outcomes R function_calls σ).1
    = map (fun _ => Raise (ConnectionError
                             "Client session not initialized. Call connect first."))
          function_calls
  ∧ calls (tool_outcomes R function_calls σ).2 = calls σ
  ∧ stdout (tool_outcomes R function_calls σ).2
    = stdout σ ++ map (fun c => CallingTool (fc_name c) (fc_args c)) function_calls.
Proof.
  revert σ. induction function_calls as [|call rest IH]; intros σ Hs; simpl.
  - by rewrite app_nil_r.
  - unfold call_tool. rewrite bind_eq. unfold session. rewrite bind_eq. simpl.
    rewrite Hs. simpl.
    match goal with |- context [tool_outcomes R rest ?σ1] => specialize (IH σ1 Hs) end.
    destruct (tool_outcomes R rest _) as [outcomes σ2]. simpl in *.
    destruct IH as (-> & -> & ->). by rewrite <- !app_assoc.
Qed.

End BatchCalls.

(** X15. [execute_tool_requests] prints one line per requested call and,
    on a client that holds a session, sends exactly one [call_tool]
    request per requested call, with its name and arguments, in the order
    of the requests.  On a client without a session it sends nothing, and
    every result part is the error payload of the [ConnectionError]. *)
Theorem tool_calls_follow_requests {W : Type} (R : Remote W)
    (response : option Response) (σ : State W) :
  let σ' := (execute_tool_requests R response σ).2 in
  stdout σ' = stdout σ ++ map (fun c => CallingTool (fc_name c) (fc_args c))
                              (requested response)
  ∧ (is_Some (_session (client σ)) ->
       calls σ' = calls σ ++ map (fun c => CallTool (fc_name c) (fc_args c))
                                 (requested response))
  ∧ (_session (client σ) = None ->
       calls σ' = calls σ
       ∧ (execute_tool_requests R response σ).1
         = Return (map (fun c =>
                     FunctionResponse (fc_name c)
                       (error_payload (fc_name c)
                          (ConnectionError
                             "Client session not initialized. Call connect first.")))
                     (requested response))).
Proof.
  rewrite execute_tool_requests_eq. simpl.
  destruct (_session (client σ)) as [s|] eqn:Hs.
  - destruct (tool_outcomes_with_session R (requested response) σ s Hs) as [Hc Ho].
    split_and!; [done|done|done].
  - destruct (tool_outcomes_without_session R (requested response) σ Hs) as (Hr & Hc & Ho).
    split_and!; [done|by intros []|]. intros _. split; [done|].
    rewrite Hr. f_equal. clear. induction (requested response) as [|c l IH]; [done|].
    simpl. by rewrite IH.
Qed.

Lemma tool_calls_follow_requests_witness :
  calls (execute_tool_requests scripted
           (Some (response_of [Call schedule_q3; Text "then"; Call schedule_q3]))
           (new_session broken_tool connected_client)).2
    = [CallTool "schedule_meeting" (fc_args schedule_q3);
       CallTool "schedule_meeting" (fc_args schedule_q3)]
  ∧ calls (execute_tool_requests scripted (Some (response_of [Call schedule_q3]))
             (new_session broken_tool new_client)).2 = [].
Proof.
  destruct (tool_calls_follow_requests scripted
              (Some (response_of [Call schedule_q3; Text "then"; Call schedule_q3]))
              (new_session broken_tool connected_client)) as (_ & Hwith & _).
  destruct (tool_calls_follow_requests scripted (Some (response_of [Call schedule_q3]))
              (new_session broken_tool new_client)) as (_ & _ & Hwithout).
  split.
  - apply Hwith. by eexists.
  - apply Hwithout. reflexivity.
Defined.

(** ** [ask], in every case *)

(** X16. [ask] sends one request to the model, carrying the list with the
    question appended.  When it returns a text that is not empty, the list
    has gained exactly the question and the answer, as a user and a model
    message; when it returns the empty string, the list is as before; when
    it raises (the text accessor failed with an error other than
    [ValueError] or [IndexError]), the question is left at the end of the
    list. *)
Theorem ask_outcome {W : Type} (R : Remote W) (question : string)
    (messages_history : loc) (σ σ' : State W) (r : result string) :
  messages_history < length (heap σ) ->
  ask R question messages_history σ = (r, σ') ->
  let asked := heap σ !!! messages_history ++ [Msg "user" [Text question]] in
  calls σ' = calls σ ++ [GenerateContent asked None]
  ∧ match r with
    | Return text =>
        (text = EmptyString ∧ heap σ' = heap σ)
        ∨ (text ≠ EmptyString
           ∧ heap σ' !!! messages_history = asked ++ [Msg "model" [Text text]])
    | Raise e => heap σ' !!! messages_history = asked
    end.
Proof.
  intros Hl Hask asked. revert Hask. unfold ask. rewrite bind_eq.
  unfold add_message_to_history.
  set (σ0 := (list_append messages_history (Msg "user" [Text question]) σ).2).
  change (list_append messages_history (Msg "user" [Text question]) σ)
    with (Return tt, σ0). cbv beta iota.
  assert (heap σ0 !!! messages_history = asked) as Hasked
    by (by apply list_append_items).
  assert (calls σ0 = calls σ) as Hcalls0 by done.
  assert (messages_history < length (heap σ0)) as Hl0
    by (subst σ0; simpl; by rewrite length_insert).
  assert (same_store (list_append messages_history (Msg "user" [Text question]) σ).2 σ0)
    as Hstore0 by done.
  clearbody σ0.
  rewrite bind_eq.
  destruct (chat R messages_history None σ0) as [response σ1] eqn:Hchat.
  pose proof (keeps_run same_store _ _ _ _ (chat_same_store R _ _) Hchat) as Hstore1.
  pose proof Hchat as Hchat'. rewrite chat_eq, Hasked in Hchat'.
  assert (calls σ1 = calls σ ++ [GenerateContent asked None]
          ∧ ∃ o, response = Return o) as (Hcalls1 & o & ->).
  { change (request_tools None) with (@None (list GeminiTool)) in Hchat'.
    cbv zeta in Hchat'.
    destruct (generate_content R asked None (world σ0)) as [[resp|e] w];
      injection Hchat' as <- <-; simpl; rewrite Hcalls0; eauto. }
  assert (heap σ1 = heap σ0) as Hheap1 by apply Hstore1.
  destruct (list_pop_append messages_history (Msg "user" [Text question]) σ Hl σ1)
    as (σ2 & Hpop & Hheap2 & _); [by etransitivity|].
  assert (calls σ2 = calls σ1) as Hcalls2.
  { revert Hpop. unfold list_pop.
    destruct (last _); [intros Heq; injection Heq as _ <-; done|done]. }
  destruct o as [resp|].
  - rewrite bind_eq.
    pose proof (text_from_message_state R (Some resp) σ1) as Hst.
    destruct (text_from_message R (Some resp) σ1) as [[text|e] σt]; simpl in Hst; subst σt.
    + destruct text as [|ch text]; cbn [PyStr.nonempty].
      * rewrite bind_eq, Hpop. intros [= <- <-]. rewrite Hcalls2. split; [done|]. by left.
      * rewrite bind_eq. simpl. intros [= <- <-]. split; [done|]. right. split; [done|].
        rewrite Hheap1, Hasked. apply list_lookup_total_correct.
        by apply list_lookup_insert_eq.
    + intros [= <- <-]. split; [done|]. by rewrite Hheap1.
  - rewrite bind_eq, Hpop. intros [= <- <-]. rewrite Hcalls2. split; [done|]. by left.
Qed.

Lemma ask_outcome_witness :
  heap (ask scripted "What is the capital of Germany?" 0
          (new_session (answering "Berlin.") connected_client)).2 !!! 0
  = [Msg "user" [Text "What is the capital of Germany?"]; Msg "model" [Text "Berlin."]].
Proof.
  destruct (ask_outcome scripted "What is the capital of Germany?" 0
              (new_session (answering "Berlin.") connected_client)
              (ask scripted "What is the capital of Germany?" 0
                 (new_session (answering "Berlin.") connected_client)).2
              (Return "Berlin.")) as (_ & [[Hempty _]|[_ Hheap]]).
  - simpl. lia.
  - vm_compute. reflexivity.
  - discriminate Hempty.
  - exact Hheap.
Defined.

(** ** The life of a client *)

(** X17. [cleanup] can be repeated: once it has returned, a second
    [cleanup] returns as well and changes nothing, and the client is again
    as a new one, with no session and nothing left to close. *)
Theorem cleanup_twice {W : Type} (R : Remote W) (σ σ1 : State W) :
  cleanup R σ = (Return tt, σ1) ->
  cleanup R σ1 = (Return tt, σ1) ∧ client σ1 = new_client.
Proof.
  intros Hclean. apply cleanup_return in Hclean as Hclient. split; [|done].
  rewrite cleanup_empty_stack by (by rewrite Hclient).
  f_equal. destruct σ1. simpl in *. by subst.
Qed.

Lemma cleanup_twice_witness :
  cleanup scripted (cleanup scripted (new_session closing connected_client)).2
  = (Return tt, (cleanup scripted (new_session closing connected_client)).2).
Proof.
  apply (cleanup_twice scripted (new_session closing connected_client)).
  vm_compute. reflexivity.
Defined.

(** X18. [connect] on a new client.  When it returns, the client holds a
    session, both contexts are on the exit stack, and the one request made
    is the handshake.  When it raises, the exit stack holds exactly the
    contexts entered so far: none, the transport alone (no session is
    assigned and no request was made), or both (the handshake was sent and
    failed, and the session stays assigned).  No list of messages is
    touched. *)
Theorem connect_outcome {W : Type} (R : Remote W) (σ σ' : State W) (r : result unit) :
  client σ = new_client ->
  connect R σ = (r, σ') ->
  (r = Return tt -> client σ' = connected_client ∧ calls σ' = calls σ ++ [Initialize])
  ∧ ((client σ' = new_client ∧ calls σ' = calls σ)
     ∨ (client σ' = {| _session := None; _exit_stack := [StdioTransport] |}
        ∧ calls σ' = calls σ)
     ∨ (client σ' = connected_client ∧ calls σ' = calls σ ++ [Initialize]))
  ∧ heap σ' = heap σ ∧ history σ' = history σ.
Proof.
  intros Hc. unfold connect. rewrite bind_eq. unfold local at 1.
  destruct (stdio_client_enter R (world σ)) as [[[]|e] w1];
    [|intros [= <- <-]; simpl; split_and!; [done|by left|done|done]].
  rewrite bind_eq. simpl. rewrite bind_eq. unfold local at 1. simpl.
  destruct (client_session_enter R w1) as [[s|e] w2];
    [|intros [= <- <-]; simpl; rewrite Hc; split_and!; [done|by right; left|done|done]].
  rewrite bind_eq. simpl. rewrite bind_eq. simpl. unfold remote. simpl.
  destruct s.
  destruct (session_initialize R w2) as [[[]|e] w3]; intros [= <- <-]; simpl; rewrite Hc;
    split_and!; try done; by right; right.
Qed.

Lemma connect_outcome_witness :
  client (connect scripted
            (new_session
               {| on_connect := [Return tt; Return tt; Return tt]; on_exit := [];
                  on_list_tools := []; on_call_tool := []; on_get_prompt := [];
                  on_list_prompts := []; on_generate := [] |} new_client)).2
    = connected_client.
Proof.
  edestruct (connect_outcome scripted
               (new_session
                  {| on_connect := [Return tt; Return tt; Return tt]; on_exit := [];
                     on_list_tools := []; on_call_tool := []; on_get_prompt := [];
                     on_list_prompts := []; on_generate := [] |} new_client))
    as (Hok & _); [reflexivity|apply surjective_pairing|].
  apply Hok. vm_compute. reflexivity.
Defined.

(** ** A turn with a tool batch *)

Section ToolTurn.
Context {W : Type} (R : Remote W).

(** What the dispatch of the input adds to the working list: nothing, or
    one user message. *)
Lemma handle_user_input_items user_input work (σ σ1 : State W) out :
  work < length (heap σ) ->
  handle_user_input R user_input work σ = (out, σ1) ->
  client σ1 = client σ
  ∧ length (heap σ1) = length (heap σ)
  ∧ ∃ said, heap σ1 !!! work = heap σ !!! work ++ said
            ∧ (said = [] ∨ ∃ text, said = [Msg "user" [Text text]]).
Proof.
  intros Hl. unfold handle_user_input, add_message_to_history.
  assert (∀ m, client (list_append work m σ).2 = client σ
               ∧ length (heap (list_append work m σ).2) = length (heap σ)) as Happ.
  { intros m. simpl. by rewrite length_insert. }
  destruct (PyStr.startswith_slash user_input).
  - destruct (PyStr.split _) as [|prompt_name rest].
    { intros [= <- <-]. split_and!; [done|done|]. exists []. rewrite app_nil_r. auto. }
    rewrite bind_eq. cbn [print modify fst snd]. cbv beta iota.
    rewrite try_except_eq, bind_eq.
    set (σp := set_stdout _ σ).
    assert (heap σp = heap σ ∧ client σp = client σ) as [Hhp Hcp] by done.
    clearbody σp.
    destruct (run_prompt R prompt_name _ σp) as [[[text|]|e] σ2] eqn:Hp;
      pose proof (keeps_run same_store _ _ _ _ (run_prompt_same_store R _ _) Hp) as [Hh2 _];
      pose proof (keeps_run same_client _ _ _ _ (run_prompt_same_client R _ _) Hp) as Hc2;
      unfold same_client in Hc2.
    + destruct (PyStr.nonempty text).
      * rewrite bind_eq.
        match goal with
        | |- context [list_append work ?m σ2] =>
            set (msg := m);
            pose proof (list_append_items work msg σ2) as Hitems;
            assert (client (list_append work msg σ2).2 = client σ2
                    ∧ length (heap (list_append work msg σ2).2) = length (heap σ2))
              as [Hc3 Hl3] by (simpl; by rewrite length_insert);
            destruct (list_append work msg σ2) as [[[]|e] σ3]
        end;
          intros [= <- <-]; simpl in *;
          (split_and!; [by rewrite Hc3, Hc2|by rewrite Hl3, Hh2, Hhp|]);
          exists [msg]; (split; [rewrite Hitems by (by rewrite Hh2, Hhp);
                                  by rewrite Hh2, Hhp|right; by eexists]).
      * intros [= <- <-]. split_and!; [by rewrite Hc2|by rewrite Hh2, Hhp|].
        exists []. rewrite app_nil_r, Hh2, Hhp. auto.
    + intros [= <- <-]. split_and!; [by rewrite Hc2|by rewrite Hh2, Hhp|].
      exists []. rewrite app_nil_r, Hh2, Hhp. auto.
    + simpl. intros [= <- <-]. simpl. split_and!; [by rewrite Hc2|by rewrite Hh2, Hhp|].
      exists []. rewrite app_nil_r, Hh2, Hhp. auto.
  - rewrite bind_eq.
    pose proof (list_append_items work (Msg "user" [Text user_input]) σ Hl) as Hitems.
    destruct (Happ (Msg "user" [Text user_input])) as [Hc Hlen].
    destruct (list_append work (Msg "user" [Text user_input]) σ) as [[[]|e] σ2];
      intros [= <- <-]; simpl in *; (split_and!; [done|done|]);
      eexists; (split; [exact Hitems|right; by eexists]).
Qed.

(** The main flow when the model answers the first request with a
    response that requests tool calls. *)
Lemma conversational_flow_tool_batch work (σ1 : State W) s listed w1 w2 r :
  work < length (heap σ1) ->
  _session (client σ1) = Some s ->
  session_list_tools R (world σ1) = (Return listed, w1) ->
  generate_content R (heap σ1 !!! work)
    (request_tools (Some (map gemini_tool listed))) w1 = (Return r, w2) ->
  requested (Some r) ≠ [] ->
  ∃ c cs outcomes final flow σ',
    candidates r = c :: cs
    ∧ length outcomes = length (requested (Some r))
    ∧ conversational_flow R work σ1 = (flow, σ')
    ∧ (final = [] ∨ ∃ c2, final = [ModelContent c2])
    ∧ heap σ' !!! work
      = heap σ1 !!! work
          ++ [ModelContent (content c);
              Msg "tool" (zip_with outcome_part (requested (Some r)) outcomes)]
          ++ final
    ∧ calls σ'
      = calls σ1
          ++ [ListTools;
              GenerateContent (heap σ1 !!! work)
                (request_tools (Some (map gemini_tool listed)))]
          ++ map (fun call => CallTool (fc_name call) (fc_args call)) (requested (Some r))
          ++ [GenerateContent
                (heap σ1 !!! work
                   ++ [ModelContent (content c);
                       Msg "tool" (zip_with outcome_part (requested (Some r)) outcomes)])
                None].
Proof.
  intros Hl Hs Htools Hgen Hreq.
  destruct (candidates r) as [|c cs] eqn:Hcand;
    [by unfold requested in Hreq; rewrite Hcand in Hreq|].
  destruct (parts (content c)) as [|p ps] eqn:Hparts;
    [by unfold requested in Hreq; rewrite Hcand, Hparts in Hreq|].
  set (before := heap σ1 !!! work) in *.
  set (tools := request_tools (Some (map gemini_tool listed))) in *.
  unfold conversational_flow.
  rewrite bind_eq, (get_tools_eq R σ1 s Hs), Htools. cbn [fst snd].
  rewrite bind_eq, chat_eq. cbn [world answered set_world set_calls heap].
  fold before. fold tools. rewrite Hgen.
  set (σ2 := answered (GenerateContent before tools) w2 (answered ListTools w1 σ1)).
  assert (heap σ2 = heap σ1 ∧ client σ2 = client σ1
          ∧ calls σ2 = calls σ1 ++ [ListTools; GenerateContent before tools])
    as (Hh2 & Hc2 & Hcalls2).
  { subst σ2. simpl. by rewrite <- app_assoc. }
  clearbody σ2.
  rewrite bind_eq. unfold _add_valid_model_response. rewrite Hcand, Hparts.
  unfold add_message_to_history.
  set (σ3 := (list_append work (ModelContent (content c)) σ2).2).
  change (list_append work (ModelContent (content c)) σ2) with (Return tt, σ3).
  cbv beta iota.
  assert (heap σ3 !!! work = before ++ [ModelContent (content c)]) as Hwork3.
  { subst σ3. rewrite list_append_items by (by rewrite Hh2). by rewrite Hh2. }
  assert (work < length (heap σ3)) as Hl3.
  { subst σ3. simpl. by rewrite length_insert, Hh2. }
  assert (client σ3 = client σ1 ∧ calls σ3 = calls σ2) as [Hc3 Hcalls3] by done.
  clearbody σ3.
  set (function_calls := requested (Some r)) in *.
  set (outcomes := (tool_outcomes R function_calls σ3).1).
  set (σ4 := (tool_outcomes R function_calls σ3).2).
  assert (length outcomes = length function_calls) as Hlen
    by apply tool_outcomes_length.
  assert (execute_tool_requests R (Some r) σ3
          = (Return (zip_with outcome_part function_calls outcomes), σ4)) as Hexec
    by apply execute_tool_requests_eq.
  assert (calls σ4 = calls σ3
            ++ map (fun call => CallTool (fc_name call) (fc_args call)) function_calls)
    as Hcalls4.
  { destruct (tool_outcomes_with_session R function_calls σ3 s) as [H _];
      [by rewrite Hc3|exact H]. }
  assert (zip_with outcome_part function_calls outcomes ≠ []) as Hne.
  { intros Hnil. apply (f_equal length) in Hnil. rewrite length_zip_with in Hnil.
    simpl in Hnil. rewrite Hlen, Nat.min_id in Hnil. by apply nil_length_inv in Hnil. }
  clearbody outcomes σ4.
  destruct (tool_round_one_message R r work σ3 σ4 _ Hl3 Hexec Hne)
    as (added & Hitems & Hadded & _ & Hcalls).
  rewrite Hwork3 in Hitems, Hcalls.
  set (results := zip_with outcome_part function_calls outcomes) in *.
  assert (∃ final,
    (final = [] ∨ ∃ c2, final = [ModelContent c2])
    ∧ heap (tool_round R r work σ3).2 !!! work
      = before ++ [ModelContent (content c); Msg "tool" results] ++ final
    ∧ calls (tool_round R r work σ3).2
      = calls σ1 ++ [ListTools; GenerateContent before tools]
          ++ map (fun call => CallTool (fc_name call) (fc_args call)) function_calls
          ++ [GenerateContent (before ++ [ModelContent (content c); Msg "tool" results])
                None]) as (final & Hfinal & Hheap & Hlog).
  { exists (match added with _ :: rest => rest | [] => [] end).
    rewrite Hitems, Hcalls, Hcalls4, Hcalls3, Hcalls2, <- !app_assoc.
    destruct Hadded as [->|[c2 ->]]; split_and!; eauto. }
  rewrite bind_eq.
  destruct (tool_round R r work σ3) as [[[final_text|]|e] σ5]; simpl in Hheap, Hlog.
  - rewrite bind_eq. cbn [modify]. cbv beta iota. rewrite bind_eq.
    destruct (PyStr.nonempty (PyStr.strip final_text)); cbn [print modify];
      cbv beta iota; eexists c, cs, outcomes, final, _, _;
      (split_and!; [done|done|reflexivity|done|exact Hheap|exact Hlog]).
  - eexists c, cs, outcomes, final, _, _.
    split_and!; [done|done|reflexivity|done|exact Hheap|exact Hlog].
  - eexists c, cs, outcomes, final, _, _.
    split_and!; [done|done|reflexivity|done|exact Hheap|exact Hlog].
Qed.

End ToolTurn.



(** ** How a session ends *)

Section SessionEnd.
Context {W : Type} (R : Remote W).

Lemma handle_user_input_no_break user_input work (σ σ' : State W) :
  handle_user_input R user_input work σ ≠ (Return Break, σ').
Proof.
  unfold handle_user_input.
  destruct (PyStr.startswith_slash user_input); [|done].
  destruct (PyStr.split _) as [|prompt_name rest]; [done|].
  rewrite bind_eq. cbn [print modify fst snd]. cbv beta iota.
  rewrite try_except_eq, bind_eq.
  destruct (run_prompt R prompt_name _ _) as [[[text|]|e] σ1]; [|done|done].
  by destruct (PyStr.nonempty text).
Qed.

Lemma conversational_flow_no_break work (σ σ' : State W) :
  conversational_flow R work σ ≠ (Return Break, σ').
Proof.
  unfold conversational_flow. rewrite bind_eq.
  destruct (get_tools R σ) as [[available_tools|e] σ1]; [|done].
  rewrite bind_eq.
  destruct (chat R work (Some available_tools) σ1) as [[[r|]|e] σ2]; [|done|done].
  rewrite bind_eq.
  destruct (_add_valid_model_response (Some r) work σ2) as [[[]|e] σ3]; [|done].
  rewrite bind_eq.
  destruct (tool_round R r work σ3) as [[[final_text|]|e] σ4]; [|done|done].
  rewrite bind_eq. simpl. rewrite bind_eq.
  by destruct (PyStr.nonempty (PyStr.strip final_text)).
Qed.

Lemma turn_break user_input (σ σ' : State W) :
  turn R user_input σ = (Return Break, σ') -> PyStr.lower user_input = "exit".
Proof.
  unfold turn. destruct (String.eqb_spec (PyStr.lower user_input) "exit") as [|_]; [done|].
  rewrite bind_eq. simpl. rewrite bind_eq. simpl. rewrite bind_eq.
  set (work := length (heap σ)).
  set (σ0 := set_heap (heap σ ++ [heap σ !!! history σ]) σ).
  change (list_new (heap σ !!! history σ) σ) with (Return work, σ0). cbv beta iota.
  rewrite bind_eq.
  destruct (handle_user_input R user_input work σ0) as [[[| |]|e] σ1] eqn:Hh; try done.
  - by apply handle_user_input_no_break in Hh.
  - intros Hflow. by apply conversational_flow_no_break in Hflow.
Qed.

Lemma loop_return lines (σ σ' : State W) :
  loop R lines σ = (Return tt, σ') ->
  ∃ before x after,
    lines = before ++ x :: after
    ∧ PyStr.lower x = "exit"
    ∧ Forall (fun y => PyStr.lower y ≠ "exit") before.
Proof.
  revert σ. induction lines as [|user_input rest IH]; intros σ; simpl; [done|].
  rewrite bind_eq.
  destruct (String.eqb_spec (PyStr.lower user_input) "exit") as [Hexit|Hne].
  { intros _. exists [], user_input, rest. by split_and!. }
  destruct (turn R user_input σ) as [[[| |]|e] σ1] eqn:Hturn; [| | |done].
  - by apply turn_break in Hturn.
  - intros (before & x & after & -> & Hx & Hbefore)%IH.
    exists (user_input :: before), x, after. split_and!; [done|done|by constructor].
  - intros (before & x & after & -> & Hx & Hbefore)%IH.
    exists (user_input :: before), x, after. split_and!; [done|done|by constructor].
Qed.

(** The state in which [run] enters the loop does not depend on the
    lines of input. *)
Lemma run_loop (σ : State W) : ∃ σ0, ∀ lines, run R lines σ = loop R lines σ0.
Proof.
  unfold run.
  destruct (try_except (list_prompts R ≫= λ prompts, print (Tip prompts))
              (λ e, print (CouldNotFetchPrompts e)) σ) as [[[]|e] σ0] eqn:Htry.
  - exists σ0. intros lines. by rewrite bind_eq, Htry.
  - exfalso. revert Htry. rewrite try_except_eq, bind_eq.
    by destruct (list_prompts R σ) as [[prompts|e'] σ1].
Qed.

End SessionEnd.

(** X19. A session ends normally only on ["exit"].  When [run] returns
    instead of raising, the lines of input contain a line that reads
    ["exit"] in some mix of cases; the lines before the first such line are
    the ones processed as turns, and the lines after it are never read. *)
Theorem run_returns_only_on_exit {W : Type} (R : Remote W)
    (lines : list string) (σ σ' : State W) :
  run R lines σ = (Return tt, σ') ->
  ∃ before x after,
    lines = before ++ x :: after
    ∧ PyStr.lower x = "exit"
    ∧ Forall (fun y => PyStr.lower y ≠ "exit") before
    ∧ ∀ after', ∃ σ'', run R (before ++ x :: after') σ = (Return tt, σ'').
Proof.
  destruct (run_loop R σ) as (σ0 & Hrun). rewrite Hrun. intros Hloop.
  destruct (loop_return R lines σ0 σ' Hloop) as (before & x & after & -> & Hx & Hbefore).
  exists before, x, after. split_and!; [done..|].
  intros after'. rewrite Hrun.
  exists σ'. revert Hloop. clear -Hx Hbefore. revert σ0.
  induction Hbefore as [|y before Hy _ IH]; intros σ0; simpl.
  - by rewrite !bind_eq, !(turn_exit R x σ0 Hx).
  - rewrite !bind_eq. destruct (turn R y σ0) as [[[| |]|e] σ1]; auto.
Qed.

Lemma run_returns_only_on_exit_witness :
  ∃ before x after,
    ["Hello"; "EXIT"; "never read"] = before ++ x :: after
    ∧ PyStr.lower x = "exit"
    ∧ Forall (fun y => PyStr.lower y ≠ "exit") before.
Proof.
  edestruct (run_returns_only_on_exit scripted ["Hello"; "EXIT"; "never read"]
               (new_session (answering "Hi.") connected_client))
    as (before & x & after & Hlines & Hx & Hbefore & _); [vm_compute; reflexivity|].
  by exists before, x, after.
Defined.

(** ** The sampling callback *)

Lemma sampling_messages_spec msgs messages :
  sampling_messages msgs messages =
    messages ++
    omap (fun msg =>
            match sm_content msg with
            | SamplingText text =>
                Some (if String.eqb (sm_role msg) "assistant" then "model" else sm_role msg,
                      [text])
            | _ => None
            end) msgs.
Proof.
  revert messages. induction msgs as [|msg rest IH]; intros messages; simpl.
  - by rewrite app_nil_r.
  - destruct (sm_content msg); rewrite IH; [|done|done]. by rewrite <- app_assoc.
Qed.

(** X20. The sampling callback prints its banner, asks the backend once
    and answers in the role ["assistant"] with the name of the model and
    the text of the response; it catches nothing, so a failure of the
    backend or of the text accessor is raised.  The messages it sends are
    the text messages of the request, in order, each with its text as
    single part and with its own role, except that the role ["assistant"]
    is sent as ["model"]: no message sent has the role ["assistant"], and
    messages that are not text are left out.  The generation settings
    always hold [max_output_tokens], and hold [temperature] and [top_p]
    exactly when the request gives them. *)
Theorem sampling_callback_request {W F : Type} (R : Remote W)
    (generate_content_async :
       list (string * list string) -> list (string * ConfigValue F) -> W -> result Response * W)
    (model_name : string) (params : CreateMessageRequestParams F) (st : W * list string) :
  let sent := sampling_messages (sp_messages params) [] in
  let config := generation_config_args params in
  sent = omap (fun msg =>
                 match sm_content msg with
                 | SamplingText text =>
                     Some (if String.eqb (sm_role msg) "assistant"
                           then "model" else sm_role msg, [text])
                 | _ => None
                 end) (sp_messages params)
  ∧ Forall (fun m => m.1 ≠ "assistant") sent
  ∧ ("max_output_tokens", ConfigInt (max_tokens params)) ∈ config
  ∧ (∀ v, ("temperature", v) ∈ config <-> ∃ t, temperature params = Some t ∧ v = ConfigNumber t)
  ∧ (∀ v, ("top_p", v) ∈ config <-> ∃ p, top_p params = Some p ∧ v = ConfigNumber p)
  ∧ sampling_callback R generate_content_async model_name params st
    = (match (generate_content_async sent config st.1).1 with
       | Return response =>
           match response_text R response with
           | Return text =>
               Return {| cmr_role := "assistant"; cmr_model := model_name;
                         cmr_text := text |}
           | Raise e => Raise e
           end
       | Raise e => Raise e
       end,
       ((generate_content_async sent config st.1).2,
        st.2 ++ ["--- Server triggered sampling callback ---"])).
Proof.
  intros sent config. subst sent config. rewrite sampling_messages_spec. simpl.
  split_and!.
  - done.
  - induction (sp_messages params) as [|msg rest IH]; simpl; [constructor|].
    destruct (sm_content msg); simpl; [|done|done]. constructor; [|done]. simpl.
    destruct (String.eqb_spec (sm_role msg) "assistant"); done.
  - unfold generation_config_args.
    destruct (temperature params), (top_p params); simpl; apply elem_of_cons; by left.
  - intros v. unfold generation_config_args.
    destruct (temperature params) as [t|], (top_p params) as [p|]; simpl;
      rewrite ?elem_of_cons, ?elem_of_nil;
      (split;
       [intros H;
        repeat (destruct H as [H|H];
                [try discriminate H; try (injection H as ->; eauto)|]);
        try done
       |intros (x & Hx & ->); try discriminate Hx; injection Hx as <-; auto 6]).
  - intros v. unfold generation_config_args.
    destruct (temperature params) as [t|], (top_p params) as [p|]; simpl;
      rewrite ?elem_of_cons, ?elem_of_nil;
      (split;
       [intros H;
        repeat (destruct H as [H|H];
                [try discriminate H; try (injection H as ->; eauto)|]);
        try done
       |intros (x & Hx & ->); try discriminate Hx; injection Hx as <-; auto 6]).
  - unfold sampling_callback. rewrite bind_eq. simpl. rewrite bind_eq.
    rewrite sampling_messages_spec. simpl.
    destruct (generate_content_async _ _ st.1) as [[response|e] w]; [|done].
    simpl. by destruct (response_text R response).
Qed.

Lemma sampling_callback_request_witness :
  (∃ t, temperature {| sp_messages := [{| sm_role := "assistant";
                                          sm_content := SamplingText "Draft minutes." |};
                                       {| sm_role := "user"; sm_content := SamplingImage |};
                                       {| sm_role := "user";
                                          sm_content := SamplingText "Shorter." |}];
                       max_tokens := 256; temperature := Some 7; top_p := None |} = Some t
        ∧ ConfigNumber 7 = ConfigNumber t)
  ∧ sampling_messages [{| sm_role := "assistant";
                          sm_content := SamplingText "Draft minutes." |};
                       {| sm_role := "user"; sm_content := SamplingImage |};
                       {| sm_role := "user"; sm_content := SamplingText "Shorter." |}] []
    = [("model", ["Draft minutes."]); ("user", ["Shorter."])].
Proof.
  destruct (sampling_callback_request scripted
              (fun _ _ (w : Script) => (Return (response_of [Text "Minutes."]), w))
              "gemini-2.5-flash-lite"
              {| sp_messages := [{| sm_role := "assistant";
                                    sm_content := SamplingText "Draft minutes." |};
                                 {| sm_role := "user"; sm_content := SamplingImage |};
                                 {| sm_role := "user";
                                    sm_content := SamplingText "Shorter." |}];
                 max_tokens := 256; temperature := Some 7; top_p := None |}
              (silent, [])) as (Hsent & _ & _ & Htemp & _).
  split; [|exact Hsent].
  apply (Htemp (ConfigNumber 7)). simpl. apply elem_of_cons. right.
  apply elem_of_cons. by left.
Defined.
